(** * wfirst_imsim: the pointing-geometry engine and the per-pointing pipeline

    A shallow embedding of [telescope.py] (class [pointing]) and of [sim.py]
    (class [wfirst_sim]), followed by the properties of the specification
    that were checked against it.

    Conventions of the embedding:
    - Python floats are idealised as real numbers ([R]); integers are [Z].
    - A Python exception is a value of [error]; a method that can raise
      returns a [result].
    - An attribute that is only created by a later method call ([self.ra],
      [self.bpass], ...) is an [option] field, [None] meaning "not created
      yet"; reading it then raises [AttributeError].
    - The parameter dictionary is a finite map from keys to Python values.
    - Objects built by the external libraries (GalSim profiles, PSFs, WCS)
      are recorded as the constructor call that produced them. *)

From Stdlib Require Import ZArith List String Reals Lra Lia Bool.
From stdpp Require Import gmap strings list.
Import ListNotations.

(** ** Python values, exceptions and the exception monad *)

Module Py.

(** The exceptions that the embedded code can raise. [Blocked] is not an
    exception: it stands for a blocking MPI call (a barrier or a receive)
    that never returns because rank [source] never takes part in it. *)
Inductive error : Type :=
| ParamError (msg : string)
| AttributeError (attr : string)
| KeyError (key : string)
| IndexError
| TypeError
| ValueError
| UnboundLocalError (name : string)
| Blocked (source : nat).

Inductive result (A : Type) : Type :=
| Raise (e : error)
| Ok (a : A).

Arguments Raise {A} e.
Arguments Ok {A} a.

Definition bind {A B : Type} (m : result A) (k : A -> result B) : result B :=
  match m with
  | Raise e => Raise e
  | Ok a => k a
  end.

(** A numpy array and a plain Python list behave differently under [*]. *)
Inductive vec : Type :=
| PyList (l : list R)
| NdArray (l : list R).

Inductive pyval : Type :=
| PyNone
| PyBool (b : bool)
| PyInt (z : Z)
| PyNum (r : R)
| PyStr (s : string)
| PySeq (v : vec).

(** [x is not None] *)
Definition is_not_None (v : pyval) : bool :=
  match v with
  | PyNone => false
  | _ => true
  end.

Definition is_None (v : pyval) : bool := negb (is_not_None v).

(** Truth value of [if v:] *)
Definition truthy (v : pyval) : result bool :=
  match v with
  | PyNone => Ok false
  | PyBool b => Ok b
  | PyInt z => Ok (negb (z =? 0)%Z)
  | PyNum r => Ok (if Req_dec_T r 0 then false else true)
  | PyStr s => Ok (negb (String.eqb s ""))
  | PySeq (PyList l) => Ok (negb (Nat.eqb (length l) 0))
  | PySeq (NdArray [_]) => Ok true
  | PySeq (NdArray _) => Raise ValueError
  end.

(** A value used as a float in arithmetic. *)
Definition as_num (v : pyval) : result R :=
  match v with
  | PyBool b => Ok (if b then 1%R else 0%R)
  | PyInt z => Ok (IZR z)
  | PyNum r => Ok r
  | _ => Raise TypeError
  end.

(** [d[k]] on a dict *)
Definition getitem (d : gmap string pyval) (k : string) : result pyval :=
  match d !! k with
  | Some v => Ok v
  | None => Raise (KeyError k)
  end.

(** [k in d] *)
Definition contains {V : Type} (d : gmap string V) (k : string) : bool :=
  match d !! k with
  | Some _ => true
  | None => false
  end.

(** Reading an attribute that may not have been created. *)
Definition attr {A : Type} (name : string) (o : option A) : result A :=
  match o with
  | Some a => Ok a
  | None => Raise (AttributeError name)
  end.

(** [a[i]] on a sequence with Python's negative indices. *)
Definition py_index {A : Type} (l : list A) (i : Z) : result A :=
  let n := Z.of_nat (length l) in
  let j := if (i <? 0)%Z then (i + n)%Z else i in
  if ((0 <=? j)%Z && (j <? n)%Z)%bool
  then match nth_error l (Z.to_nat j) with
       | Some a => Ok a
       | None => Raise IndexError
       end
  else Raise IndexError.

(** [np.array(v)] *)
Definition np_array (v : vec) : list R :=
  match v with
  | PyList l => l
  | NdArray l => l
  end.

(** [a * s] for an array [a] and a float [s] *)
Definition scale (a : list R) (s : R) : list R := List.map (fun c => (c * s)%R) a.

(** [v * s] where [v] may be a list: a list times a float is a [TypeError]. *)
Definition vec_times (v : vec) (s : R) : result vec :=
  match v with
  | PyList _ => Raise TypeError
  | NdArray l => Ok (NdArray (scale l s))
  end.

(** [np.where(mask)[0]] *)
Fixpoint where_from (i : nat) (mask : list bool) : list nat :=
  match mask with
  | [] => []
  | b :: rest => if b then i :: where_from (S i) rest else where_from (S i) rest
  end.

Definition np_where (mask : list bool) : list nat := where_from 0 mask.

End Py.

Import Py.

Declare Scope py_scope.
Delimit Scope py_scope with py.
Notation "'let!' x ':=' m 'in' k" := (Py.bind m (fun x => k))
  (at level 10, x name, m at level 100, k at level 200) : py_scope.
Notation "'do!' m 'in' k" := (Py.bind m (fun _ => k))
  (at level 10, m at level 100, k at level 200) : py_scope.
Open Scope py_scope.

(** ** telescope.py: class [pointing] *)

Module Telescope.

(** [galsim.PositionI] *)
Record position : Type := { pos_x : Z; pos_y : Z }.

(** GalSim profiles used as smearing kernels, recorded by construction:
    [galsim.Gaussian(fwhm=...)] and [profile.shear(g1=..., g2=...)]. *)
Inductive profile : Type :=
| Gaussian (fwhm : R)
| Shear (p : profile) (g1 g2 : R).

(** The argument list of a call of [wfirst.getPSF]. *)
Record getPSF_call : Type := {
  psf_sca : option Z;
  psf_filter : option string;
  SCA_pos : option position;
  psf_approximate_struts : pyval;
  psf_n_waves : pyval;
  wavelength : R;
  psf_extra_aberrations : pyval;
  high_accuracy : bool
}.

(** What [self.PSF] can hold: [galsim.Gaussian(half_light_radius=...)] or
    the result of [wfirst.getPSF]. *)
Inductive psf : Type :=
| GaussianPSF (half_light_radius : R)
| WfirstPSF (c : getPSF_call).

Record bandpass : Type := { effective_wavelength : R }.

(** The argument list of the call of [wfirst.getWCS] (radians, MJD). *)
Record wcs : Type := {
  world_ra : R;
  world_dec : R;
  PA : R;
  wcs_date : R;
  SCAs : Z
}.

(** One row of the dither schedule: degrees, MJD and the filter code. *)
Record dither_row : Type := {
  d_ra : R;
  d_dec : R;
  d_pa : R;
  d_date : R;
  d_filter : Z
}.

(** What surrounds the class: module-level tables of the package, files read
    at run time and library calls whose result the class only passes on. *)
Record env : Type := {
  (** last HDU of [params['dither_file']] *)
  dither_file : list dither_row;
  (** module table [filter_dither_dict_]: filter code to filter name *)
  filter_dither_dict_ : gmap Z string;
  (** [wfirst.getBandpasses(AB_zeropoint=True)] *)
  getBandpasses : gmap string bandpass;
  (** [wfirst.n_pix] *)
  n_pix : Z;
  (** module table [sca_center] *)
  sca_center : list (R * R);
  (** module table [cptr]: 12 chip-edge coefficients per SCA *)
  cptr : list R;
  (** the value of [np.random.rand()] right after [np.random.seed(s)] *)
  rand_seeded : Z -> R;
  (** the same after [np.random.seed(None)], seeded from the system *)
  rand_unseeded : R;
  (** [interp1d] over the series of [time_aberration.pickle]; [None] outside
      the interpolation range *)
  ft_interp : R -> option R;
  (** [WCS.toWorld]: sky position (ra, dec) in radians of a pixel *)
  toWorld : wcs -> position -> R * R
}.

(** The trigonometric cache written by [update_dither]. *)
Record pose_cache : Type := {
  ra : R; dec : R; pa : R;
  sdec : R; cdec : R; sra : R; cra : R; spa : R; cpa : R;
  date : R
}.

(** The cache of the SCA centre written by [update_sca]. *)
Record sca_cache : Type := {
  sca_sdec : R; sca_cdec : R; sca_sra : R; sca_cra : R
}.

(** The attributes of a [pointing] object. [pose], [sca_pose], [bpass],
    [PSF_high], [mjd], [bore], [sbore2] and [chip_enlarge] do not exist
    before the statement that first assigns them. [PSF_high] and [mjd] are
    never assigned inside the class. *)
Record pointing : Type := {
  params : gmap string pyval;
  n_waves : pyval;
  approximate_struts : pyval;
  extra_aberrations : pyval;
  rank : option Z;
  sca : option Z;
  PSF : option psf;
  PSF_high : option psf;
  WCS : option wcs;
  dither : option Z;
  filter : option string;
  bpass : option bandpass;
  los_motion : option profile;
  pose : option pose_cache;
  sca_pose : option sca_cache;
  mjd : option R;
  bore : option R;
  sbore2 : option R;
  chip_enlarge : option pyval
}.

(** Attribute assignment, one function per assigned attribute. *)
Definition set_params (v : gmap string pyval) (p : pointing) : pointing :=
  {| params := v; n_waves := n_waves p; approximate_struts := approximate_struts p;
     extra_aberrations := extra_aberrations p; rank := rank p; sca := sca p; PSF := PSF p;
     PSF_high := PSF_high p; WCS := WCS p; dither := dither p; filter := filter p;
     bpass := bpass p; los_motion := los_motion p; pose := pose p; sca_pose := sca_pose p;
     mjd := mjd p; bore := bore p; sbore2 := sbore2 p; chip_enlarge := chip_enlarge p |}.

Definition set_extra_aberrations (v : pyval) (p : pointing) : pointing :=
  {| params := params p; n_waves := n_waves p; approximate_struts := approximate_struts p;
     extra_aberrations := v; rank := rank p; sca := sca p; PSF := PSF p; PSF_high := PSF_high p;
     WCS := WCS p; dither := dither p; filter := filter p; bpass := bpass p;
     los_motion := los_motion p; pose := pose p; sca_pose := sca_pose p; mjd := mjd p;
     bore := bore p; sbore2 := sbore2 p; chip_enlarge := chip_enlarge p |}.

Definition set_sca (v : option Z) (p : pointing) : pointing :=
  {| params := params p; n_waves := n_waves p; approximate_struts := approximate_struts p;
     extra_aberrations := extra_aberrations p; rank := rank p; sca := v; PSF := PSF p;
     PSF_high := PSF_high p; WCS := WCS p; dither := dither p; filter := filter p;
     bpass := bpass p; los_motion := los_motion p; pose := pose p; sca_pose := sca_pose p;
     mjd := mjd p; bore := bore p; sbore2 := sbore2 p; chip_enlarge := chip_enlarge p |}.

Definition set_PSF (v : option psf) (p : pointing) : pointing :=
  {| params := params p; n_waves := n_waves p; approximate_struts := approximate_struts p;
     extra_aberrations := extra_aberrations p; rank := rank p; sca := sca p; PSF := v;
     PSF_high := PSF_high p; WCS := WCS p; dither := dither p; filter := filter p;
     bpass := bpass p; los_motion := los_motion p; pose := pose p; sca_pose := sca_pose p;
     mjd := mjd p; bore := bore p; sbore2 := sbore2 p; chip_enlarge := chip_enlarge p |}.

Definition set_WCS (v : option wcs) (p : pointing) : pointing :=
  {| params := params p; n_waves := n_waves p; approximate_struts := approximate_struts p;
     extra_aberrations := extra_aberrations p; rank := rank p; sca := sca p; PSF := PSF p;
     PSF_high := PSF_high p; WCS := v; dither := dither p; filter := filter p; bpass := bpass p;
     los_motion := los_motion p; pose := pose p; sca_pose := sca_pose p; mjd := mjd p;
     bore := bore p; sbore2 := sbore2 p; chip_enlarge := chip_enlarge p |}.

Definition set_dither (v : option Z) (p : pointing) : pointing :=
  {| params := params p; n_waves := n_waves p; approximate_struts := approximate_struts p;
     extra_aberrations := extra_aberrations p; rank := rank p; sca := sca p; PSF := PSF p;
     PSF_high := PSF_high p; WCS := WCS p; dither := v; filter := filter p; bpass := bpass p;
     los_motion := los_motion p; pose := pose p; sca_pose := sca_pose p; mjd := mjd p;
     bore := bore p; sbore2 := sbore2 p; chip_enlarge := chip_enlarge p |}.

Definition set_filter (v : option string) (p : pointing) : pointing :=
  {| params := params p; n_waves := n_waves p; approximate_struts := approximate_struts p;
     extra_aberrations := extra_aberrations p; rank := rank p; sca := sca p; PSF := PSF p;
     PSF_high := PSF_high p; WCS := WCS p; dither := dither p; filter := v; bpass := bpass p;
     los_motion := los_motion p; pose := pose p; sca_pose := sca_pose p; mjd := mjd p;
     bore := bore p; sbore2 := sbore2 p; chip_enlarge := chip_enlarge p |}.

Definition set_bpass (v : option bandpass) (p : pointing) : pointing :=
  {| params := params p; n_waves := n_waves p; approximate_struts := approximate_struts p;
     extra_aberrations := extra_aberrations p; rank := rank p; sca := sca p; PSF := PSF p;
     PSF_high := PSF_high p; WCS := WCS p; dither := dither p; filter := filter p; bpass := v;
     los_motion := los_motion p; pose := pose p; sca_pose := sca_pose p; mjd := mjd p;
     bore := bore p; sbore2 := sbore2 p; chip_enlarge := chip_enlarge p |}.

Definition set_los_motion (v : option profile) (p : pointing) : pointing :=
  {| params := params p; n_waves := n_waves p; approximate_struts := approximate_struts p;
     extra_aberrations := extra_aberrations p; rank := rank p; sca := sca p; PSF := PSF p;
     PSF_high := PSF_high p; WCS := WCS p; dither := dither p; filter := filter p;
     bpass := bpass p; los_motion := v; pose := pose p; sca_pose := sca_pose p; mjd := mjd p;
     bore := bore p; sbore2 := sbore2 p; chip_enlarge := chip_enlarge p |}.

Definition set_pose (v : option pose_cache) (p : pointing) : pointing :=
  {| params := params p; n_waves := n_waves p; approximate_struts := approximate_struts p;
     extra_aberrations := extra_aberrations p; rank := rank p; sca := sca p; PSF := PSF p;
     PSF_high := PSF_high p; WCS := WCS p; dither := dither p; filter := filter p;
     bpass := bpass p; los_motion := los_motion p; pose := v; sca_pose := sca_pose p;
     mjd := mjd p; bore := bore p; sbore2 := sbore2 p; chip_enlarge := chip_enlarge p |}.

Definition set_sca_pose (v : option sca_cache) (p : pointing) : pointing :=
  {| params := params p; n_waves := n_waves p; approximate_struts := approximate_struts p;
     extra_aberrations := extra_aberrations p; rank := rank p; sca := sca p; PSF := PSF p;
     PSF_high := PSF_high p; WCS := WCS p; dither := dither p; filter := filter p;
     bpass := bpass p; los_motion := los_motion p; pose := pose p; sca_pose := v; mjd := mjd p;
     bore := bore p; sbore2 := sbore2 p; chip_enlarge := chip_enlarge p |}.

Definition set_bore (v : option R) (p : pointing) : pointing :=
  {| params := params p; n_waves := n_waves p; approximate_struts := approximate_struts p;
     extra_aberrations := extra_aberrations p; rank := rank p; sca := sca p; PSF := PSF p;
     PSF_high := PSF_high p; WCS := WCS p; dither := dither p; filter := filter p;
     bpass := bpass p; los_motion := los_motion p; pose := pose p; sca_pose := sca_pose p;
     mjd := mjd p; bore := v; sbore2 := sbore2 p; chip_enlarge := chip_enlarge p |}.

Definition set_sbore2 (v : option R) (p : pointing) : pointing :=
  {| params := params p; n_waves := n_waves p; approximate_struts := approximate_struts p;
     extra_aberrations := extra_aberrations p; rank := rank p; sca := sca p; PSF := PSF p;
     PSF_high := PSF_high p; WCS := WCS p; dither := dither p; filter := filter p;
     bpass := bpass p; los_motion := los_motion p; pose := pose p; sca_pose := sca_pose p;
     mjd := mjd p; bore := bore p; sbore2 := v; chip_enlarge := chip_enlarge p |}.

Definition set_chip_enlarge (v : option pyval) (p : pointing) : pointing :=
  {| params := params p; n_waves := n_waves p; approximate_struts := approximate_struts p;
     extra_aberrations := extra_aberrations p; rank := rank p; sca := sca p; PSF := PSF p;
     PSF_high := PSF_high p; WCS := WCS p; dither := dither p; filter := filter p;
     bpass := bpass p; los_motion := los_motion p; pose := pose p; sca_pose := sca_pose p;
     mjd := mjd p; bore := bore p; sbore2 := sbore2 p; chip_enlarge := v |}.


Local Open Scope R_scope.

(** [get_bpass]: records the filter and looks its bandpass up. *)
Definition get_bpass (e : env) (filter_ : string) (st : pointing) : result pointing :=
  let st := set_filter (Some filter_) st in
  match getBandpasses e !! filter_ with
  | Some b => Ok (set_bpass (Some b) st)
  | None => Raise (KeyError filter_)
  end.

(** [fio.FITS(self.ditherfile)[-1][i]]: row [i] of the schedule. A row
    outside the table is an [IndexError]. *)
Definition fits_row (e : env) (i : Z) : result dither_row :=
  if (i <? 0)%Z then Raise IndexError
  else match nth_error (dither_file e) (Z.to_nat i) with
       | Some d => Ok d
       | None => Raise IndexError
       end.

Definition mk_pose (d : dither_row) : pose_cache :=
  let ra := d_ra d * PI / 180 in
  let dec := d_dec d * PI / 180 in
  let pa := d_pa d * PI / 180 in
  {| ra := ra; dec := dec; pa := pa;
     sdec := sin dec; cdec := cos dec;
     sra := sin ra; cra := cos ra;
     spa := sin pa; cpa := cos pa;
     date := d_date d |}.

(** [update_dither] *)
Definition update_dither (e : env) (dither : Z) (st : pointing) : result pointing :=
  let st := set_dither (Some dither) st in
  let! d := fits_row e dither in
  let st := set_pose (Some (mk_pose d)) st in
  match filter st with
  | None =>
      match filter_dither_dict_ e !! d_filter d with
      | Some name => get_bpass e name st
      | None => Raise (KeyError "filter")
      end
  | Some _ => Ok st
  end.

(** [get_wcs]: reads [self.ra], [self.dec], [self.pa], [self.date], which
    exist only once a dither has been bound. *)
Definition get_wcs (st : pointing) : result pointing :=
  let! ra := attr "ra" (option_map ra (pose st)) in
  let! dec := attr "dec" (option_map dec (pose st)) in
  let! pa := attr "pa" (option_map pa (pose st)) in
  let! date := attr "date" (option_map date (pose st)) in
  match sca st with
  | Some s =>
      Ok (set_WCS (Some {| world_ra := ra; world_dec := dec; PA := pa;
                           wcs_date := date; SCAs := s |}) st)
  | None => Raise (KeyError "None")
  end.

(** [np.random.seed(s)] followed by the first [np.random.rand()]. numpy
    accepts [None] and the integers from 0 to 2^32 - 1 as a seed. With an
    integer the draw is a function of the seed; with [None] numpy seeds
    from the operating system and [rand_unseeded] stands for the one draw
    of a single call: two calls need not see the same number. *)
Definition seed_rand (e : env) (s : option Z) : result R :=
  match s with
  | None => Ok (rand_unseeded e)
  | Some z =>
      if ((0 <=? z)%Z && (z <? 2 ^ 32)%Z)%bool
      then Ok (rand_seeded e z)
      else Raise ValueError
  end.

(** [min(date)] *)
Definition list_min (l : list R) : result R :=
  match l with
  | [] => Raise ValueError
  | a :: rest => Ok (fold_left Rmin rest a)
  end.

(** [time_aberration]: the interpolated series at the elapsed mission time
    of the dither, in steps of [delta_t] seconds, over the fiducial
    wavelength. *)
Definition time_aberration (e : env) (st : pointing) : result R :=
  let delta_t := 60 in
  let fid_wavelength := 1293 in
  let date := List.map d_date (dither_file e) in
  let! mission_start_time := list_min date in
  let! i := (match dither st with Some i => Ok i | None => Raise TypeError end) in
  let! dither_time := py_index date i in
  let dt := (dither_time - mission_start_time) * 86400 / delta_t in
  match ft_interp e dt with
  | Some v => Ok (v / fid_wavelength)
  | None => Raise ValueError
  end.

(** The pattern [if k in self.params: if self.params[k]:] *)
Definition flag (p : gmap string pyval) (k : string) : result bool :=
  match p !! k with
  | Some v => truthy v
  | None => Ok false
  end.

(** [np.array(self.extra_aberrations)], for a sequence of floats. *)
Definition aberration_array (st : pointing) : result (list R) :=
  match extra_aberrations st with
  | PySeq v => Ok (np_array v)
  | _ => Raise TypeError
  end.

(** [self.sca - 1] *)
Definition sca_minus_1 (st : pointing) : result Z :=
  match sca st with
  | Some s => Ok (s - 1)%Z
  | None => Raise TypeError
  end.

(** Lines 128-130: gradient across the focal plane. *)
Definition gradient_aberration (e : env) (st : pointing) (ea : option pyval)
  : result (option pyval) :=
  let! on := flag (params st) "gradient_aberration" in
  if on then
    let! i := sca_minus_1 st in
    let! c := py_index (sca_center e) i in
    let! a := aberration_array st in
    Ok (Some (PySeq (NdArray (List.map (fun x => snd c * x * sqrt 3 / 88.115) a))))
  else Ok ea.

(** Lines 132-135: random assignment chip to chip. *)
Definition random_aberration (e : env) (st : pointing) (ea : option pyval)
  : result (option pyval) :=
  let! on := flag (params st) "random_aberration" in
  if on then
    let! u := seed_rand e (sca st) in
    let! a := aberration_array st in
    Ok (Some (PySeq (NdArray (scale a u))))
  else Ok ea.

(** Lines 139-141: time-dependent oscillation. *)
Definition oscillating_aberration (e : env) (st : pointing) (ea : option pyval)
  : result (option pyval) :=
  let! on := flag (params st) "oscillating_aberration" in
  if on then
    let! a := aberration_array st in
    let! t := time_aberration e st in
    Ok (Some (PySeq (NdArray (scale a t))))
  else Ok ea.

(** Lines 144-153: the smearing kernel and its optional shear. *)
Definition smearing (st : pointing) : result pointing :=
  match params st !! "los_motion" with
  | None => Ok st
  | Some lm =>
      let! st1 :=
        (if is_not_None lm
         then let! r := as_num lm in
              Ok (set_los_motion (Some (Gaussian (2 * sqrt (2 * ln 2) * r))) st)
         else Ok st) in
      match params st !! "los_motion_e1", params st !! "los_motion_e2" with
      | Some e1, Some e2 =>
          let! st2 :=
            (if is_not_None e1 && is_not_None e2
             then let! p := attr "shear" (los_motion st1) in
                  let! g1 := as_num e1 in
                  let! g2 := as_num e2 in
                  Ok (set_los_motion (Some (Shear p g1 g2)) st1)
             else Ok st1) in
          if is_None e1 || is_None e2
          then Raise (ParamError "Must provide both los motion e1 and e2.")
          else Ok st2
      | _, _ => Ok st1
      end
  end.

(** Lines 156-160: smearing on a random subset of the pointings. *)
Definition random_los_motion (e : env) (st : pointing) : result pointing :=
  let! on := flag (params st) "random_los_motion" in
  if on then
    let! u := seed_rand e (dither st) in
    if Rgt_dec u 0.15 then Ok (set_los_motion None st) else Ok st
  else Ok st.

(** Lines 163-168: aberration gradient across the chip; a missing key is
    written back into the dictionary as [False]. *)
Definition random_aberration_gradient (e : env) (st : pointing) (ea : option pyval)
  : result (pointing * option pyval) :=
  match params st !! "random_aberration_gradient" with
  | Some v =>
      let! on := truthy v in
      if on then
        let! u := seed_rand e (sca st) in
        let! a := aberration_array st in
        Ok (st, Some (PySeq (NdArray
              (List.map (fun x => x * u * sqrt 3 / (IZR (n_pix e) / 2)) a))))
      else Ok (st, ea)
  | None =>
      Ok (set_params (<["random_aberration_gradient" := PyBool false]> (params st)) st, ea)
  end.

(** Lines 171-194: the PSF that is stored. *)
Definition store_psf (sca_pos : option position) (high_accuracy : bool)
  (st : pointing) (ea : option pyval) : result pointing :=
  let extra_aberrations := match ea with Some a => a | None => extra_aberrations st end in
  let! g := getitem (params st) "random_aberration_gradient" in
  let! on := truthy g in
  if on then
    Ok (set_extra_aberrations extra_aberrations (set_PSF None st))
  else
    match params st !! "gauss_psf" with
    | Some v =>
        if is_not_None v
        then let! r := as_num v in Ok (set_PSF (Some (GaussianPSF r)) st)
        else Ok st
    | None =>
        let! b := attr "bpass" (bpass st) in
        Ok (set_PSF (Some (WfirstPSF
              {| psf_sca := sca st;
                 psf_filter := filter st;
                 SCA_pos := sca_pos;
                 psf_approximate_struts := approximate_struts st;
                 psf_n_waves := n_waves st;
                 wavelength := effective_wavelength b;
                 psf_extra_aberrations := extra_aberrations;
                 high_accuracy := high_accuracy |})) st)
    end.

(** [get_psf]: the statements of the method in source order. *)
Definition get_psf (e : env) (sca_pos : option position) (high_accuracy : bool)
  (st : pointing) : result pointing :=
  let extra_aberrations := None in
  let! extra_aberrations := gradient_aberration e st extra_aberrations in
  let! extra_aberrations := random_aberration e st extra_aberrations in
  let! extra_aberrations := oscillating_aberration e st extra_aberrations in
  let! st := smearing st in
  let! st := random_los_motion e st in
  let! r := random_aberration_gradient e st extra_aberrations in
  store_psf sca_pos high_accuracy (fst r) (snd r).

(** [update_sca] *)
Definition update_sca (e : env) (sca : Z) (st : pointing) : result pointing :=
  let st := set_sca (Some sca) st in
  let! st := get_wcs st in
  let! st := get_psf e None false st in
  let! w := attr "toWorld" (WCS st) in
  let radec := toWorld e w {| pos_x := (n_pix e / 2)%Z; pos_y := (n_pix e / 2)%Z |} in
  Ok (set_sca_pose (Some {| sca_sdec := sin (snd radec); sca_cdec := cos (snd radec);
                            sca_sra := sin (fst radec); sca_cra := cos (fst radec) |}) st).

(** [v * s] on the value of [self.extra_aberrations] *)
Definition py_times (v : pyval) (s : R) : result pyval :=
  match v with
  | PySeq a => let! r := vec_times a s in Ok (PySeq r)
  | PyNum r => Ok (PyNum (r * s))
  | PyInt z => Ok (PyNum (IZR z * s))
  | PyBool b => Ok (PyNum ((if b then 1 else 0) * s))
  | _ => Raise TypeError
  end.

(** [load_psf] *)
Definition load_psf (e : env) (pos : position) (star : bool)
  (sca_pos : option position) (high_accuracy : bool) (st : pointing)
  : result (option psf) :=
  let! g := getitem (params st) "random_aberration_gradient" in
  let! on := truthy g in
  if on then
    let! u := seed_rand e (sca st) in
    let i := if Rgt_dec u 0.5 then pos_x pos else pos_y pos in
    let! b := attr "bpass" (bpass st) in
    let! a := py_times (extra_aberrations st) (IZR i - IZR (n_pix e) / 2 + 0.5) in
    Ok (Some (WfirstPSF
          {| psf_sca := sca st;
             psf_filter := filter st;
             SCA_pos := sca_pos;
             psf_approximate_struts := approximate_struts st;
             psf_n_waves := n_waves st;
             wavelength := effective_wavelength b;
             psf_extra_aberrations := a;
             high_accuracy := high_accuracy |}))
  else if star then
    let! p := attr "PSF_high" (PSF_high st) in Ok (Some p)
  else Ok (PSF st).

(** [__init__]. The call [self.update_sca(sca,sca_pos=sca_pos)] passes a
    keyword that [update_sca] does not accept. *)
Definition init (e : env) (params : gmap string pyval) (filter_ : option string)
  (sca : option Z) (dither : option Z) (sca_pos : option position)
  (max_rad_from_boresight : R) (rank : option Z) : result pointing :=
  let! _ditherfile := getitem params "dither_file" in
  let! n_waves := getitem params "n_waves" in
  let! approximate_struts := getitem params "approximate_struts" in
  let! extra_aberrations := getitem params "extra_aberrations" in
  let st :=
    {| params := params; n_waves := n_waves; approximate_struts := approximate_struts;
       extra_aberrations := extra_aberrations; rank := rank;
       sca := None; PSF := None; PSF_high := None; WCS := None; dither := None;
       filter := None; bpass := None; los_motion := None; pose := None;
       sca_pose := None; mjd := None; bore := None; sbore2 := None;
       chip_enlarge := None |} in
  let! st := (match filter_ with Some f => get_bpass e f st | None => Ok st end) in
  let! st := (match sca with Some _ => Raise TypeError | None => Ok st end) in
  let! st := (match dither with Some d => update_dither e d st | None => Ok st end) in
  let st := set_bore (Some max_rad_from_boresight) st in
  let st := set_sbore2 (Some (sin (max_rad_from_boresight / 2))) st in
  let! ce := getitem params "chip_enlarge" in
  Ok (set_chip_enlarge (Some ce) st).

(** The four edge tests of [in_sca] for one image-plane position. *)
Definition on_chip (e : env) (s : Z) (ce : R) (xi yi : R) : result bool :=
  let edge (k : Z) : result bool :=
    let! a := py_index (cptr e) (k + 12 * (s - 1))%Z in
    let! b := py_index (cptr e) (k + 1 + 12 * (s - 1))%Z in
    let! c := py_index (cptr e) (k + 2 + 12 * (s - 1))%Z in
    Ok (if Rlt_dec (a * xi + b * yi) (c + ce) then true else false) in
  let! t0 := edge 0%Z in
  let! t1 := edge 3%Z in
  let! t2 := edge 6%Z in
  let! t3 := edge 9%Z in
  Ok (t0 && t1 && t2 && t3).

(** The argument of [in_sca]: one position or arrays of positions. *)
Inductive coords : Type :=
| Scalar (ra dec : R)
| Batch (pts : list (R * R)).

Inductive in_sca_answer : Type :=
| Inside (b : bool)
| Indices (l : list nat).

Fixpoint result_map {A B : Type} (f : A -> result B) (l : list A) : result (list B) :=
  match l with
  | [] => Ok []
  | a :: rest =>
      let! b := f a in
      let! bs := result_map f rest in
      Ok (b :: bs)
  end.

(** [in_sca] *)
Definition in_sca (e : env) (c : coords) (st : pointing) : result in_sca_answer :=
  match dither st with
  | None => Raise (ParamError "No dither defined to check ra, dec against.")
  | Some _ =>
      match sca st with
      | None => Raise (ParamError "No sca defined to check ra, dec against.")
      | Some s =>
          let! p := attr "sdec" (pose st) in
          let! cev := attr "chip_enlarge" (chip_enlarge st) in
          let! ce := as_num cev in
          let test (q : R * R) : result bool :=
            let ra_ := fst q in
            let dec_ := snd q in
            let mX := - sdec p * cos dec_ * cos (ra p - ra_) + cdec p * sin dec_ in
            let mY := cos dec_ * sin (ra p - ra_) in
            let xi := - (spa p * mX + cpa p * mY) / 0.0021801102 in
            let yi := (cpa p * mX - spa p * mY) / 0.0021801102 in
            on_chip e s ce xi yi in
          match c with
          | Scalar ra_ dec_ => let! b := test (ra_, dec_) in Ok (Inside b)
          | Batch pts => let! m := result_map test pts in Ok (Indices (np_where m))
          end
      end
  end.

(** Half the chord between the unit vector of (ra, dec) and a centre given
    by its cached sines and cosines: [old_div(np.sqrt(d2),2.)]. *)
Definition half_chord (c_sdec c_cdec c_sra c_cra : R) (q : R * R) : R :=
  let x := cos (snd q) * cos (fst q) in
  let y := cos (snd q) * sin (fst q) in
  let z := sin (snd q) in
  let d2 := (x - c_cdec * c_cra) ^ 2 + (y - c_cdec * c_sra) ^ 2 + (z - c_sdec) ^ 2 in
  sqrt d2 / 2.

Definition Rle_bool (a b : R) : bool := if Rle_dec a b then true else false.

(** [near_pointing]; [pts] pairs the entries of the arrays [ra] and [dec]. *)
Definition near_pointing (pts : list (R * R)) (min_date max_date : option R)
  (sca : bool) (st : pointing) : result (list nat) :=
  let! h :=
    (if sca
     then let! c := attr "sca_cdec" (sca_pose st) in
          Ok (List.map (half_chord (sca_sdec c) (sca_cdec c) (sca_sra c) (sca_cra c)) pts)
     else let! c := attr "cdec" (pose st) in
          Ok (List.map (half_chord (sdec c) (cdec c) (sra c) (cra c)) pts)) in
  let! sb := attr "sbore2" (sbore2 st) in
  let near := List.map (fun v => Rle_bool v sb) h in
  match min_date with
  | None => Ok (np_where near)
  | Some lo =>
      let! m := attr "mjd" (mjd st) in
      match max_date with
      | None => Raise TypeError
      | Some hi =>
          Ok (np_where (List.map (fun b => b && Rle_bool lo m && Rle_bool m hi) near))
      end
  end.

End Telescope.

(** ** sim.py: class [wfirst_sim] *)

Module Sim.

Local Open Scope R_scope.

(** The catalogue object returned by [init_catalogs]: the candidate index
    sets of the three object classes. [setup] reads [gal_ind] only. *)
Record catalogs : Type := {
  gal_ind : list Z;
  star_ind : list Z;
  supernova_ind : list Z
}.

(** A detector image, its pixels in row-major order. *)
Definition image : Type := list R.

(** What surrounds the class. *)
Record env : Type := {
  tel : Telescope.env;
  (** module table [filter_dither_dict], keyed by the filter names *)
  filter_dither_dict : gmap string Z;
  (** [init_catalogs] for a pointing and the [setup] flag *)
  init_catalogs : Telescope.pointing -> bool -> catalogs;
  (** [draw_image.finalize_sca] applied to the accumulated image *)
  finalize_sca : image -> image
}.

(** The attributes of a [wfirst_sim] object that the methods below use.
    [comm] is [true] for [MPI.COMM_WORLD] and [false] for [None]. The size
    of the communicator is not stored: it is one more than the number of
    workers of the other ranks handed to [iterate_image]. *)
Record sim : Type := {
  params : gmap string pyval;
  comm : bool;
  rank : nat;
  pointing : option Telescope.pointing;
  cats : option catalogs
}.

(** [setup]: the second component is the returned flag, [True] meaning
    that the pointing is to be skipped. *)
Definition setup (e : env) (filter_ : string) (dither : Z) (sca : Z) (setup : bool)
  (s : sim) : result (sim * bool) :=
  let named := negb (String.eqb filter_ "None") in
  do! (if named && negb (contains (filter_dither_dict e) filter_)
       then Raise (ParamError ("Supplied invalid filter: " ++ filter_))
       else Ok tt) in
  let! p := Telescope.init (tel e) (params s)
              (if named then Some filter_ else None) None None None 0.009
              (Some (Z.of_nat (rank s))) in
  let! p := (if setup then Ok p
             else let! p := Telescope.update_dither (tel e) dither p in
                  Telescope.update_sca (tel e) sca p) in
  let! _seed := getitem (params s) "random_seed" in
  let c := init_catalogs e p setup in
  let s' := {| params := Telescope.params p; comm := comm s; rank := rank s;
               pointing := Some p; cats := Some c |} in
  if setup then Ok (s', false)
  else if Nat.eqb (length (gal_ind c)) 0 then Ok (s', true)
  else Ok (s', false).

(** One result of the renderer: the dictionary returned by
    [retrieve_stamp], [retrieve_star_stamp] or [retrieve_supernova_stamp]. *)
Record obj : Type := {
  o_ind : Z; o_x : R; o_y : R; o_ra : R; o_dec : R; o_mag : R;
  o_stamp : Z; o_hostid : Z
}.

(** One row of an index table. The last column is [stamp] in the galaxy
    and star tables and [hostid] in the supernova table. *)
Record row : Type := {
  ind : Z; sca : Z; dither : Z;
  x : R; y : R; ra : R; dec : R; mag : R;
  stamp : Z
}.

Definition sentinel : Z := (-999)%Z.

(** [np.empty(n, dtype=...)] followed by [table['ind'] = -999]: the other
    columns hold whatever was in memory. *)
Definition np_empty (junk : nat -> row) (n : nat) : list row :=
  List.map (fun i =>
    {| ind := sentinel; sca := sca (junk i); dither := dither (junk i);
       x := x (junk i); y := y (junk i); ra := ra (junk i); dec := dec (junk i);
       mag := mag (junk i); stamp := stamp (junk i) |}) (seq 0 n).

Inductive object_class : Type := Galaxy | Star | Supernova.

(** The assignments to row [i] in the loop of one class. The star loop
    leaves the [stamp] column as allocated. *)
Definition fill_row (c : object_class) (psca pdither : Z) (g : obj) (old : row) : row :=
  {| ind := o_ind g; sca := psca; dither := pdither;
     x := o_x g; y := o_y g; ra := o_ra g; dec := o_dec g; mag := o_mag g;
     stamp := match c with
              | Galaxy => o_stamp g
              | Star => stamp old
              | Supernova => o_hostid g
              end |}.

(** The [while True] loop of one class over the renderer's results, which
    end when the renderer reports that it is done. [pickled] is what has
    been dumped to the stream of the class. *)
Fixpoint simulate (c : object_class) (prm : gmap string pyval) (psca pdither : option Z)
  (results : list (option obj)) (i : nat) (table : list row) (pickled : list obj)
  : result (list row * list obj) :=
  match results with
  | [] => Ok (table, pickled)
  | None :: rest => simulate c prm psca pdither rest i table pickled
  | Some g :: rest =>
      let! skip :=
        (match c with
         | Galaxy => let! v := getitem prm "skip_stamps" in truthy v
         | _ => Ok false
         end) in
      let pickled := if skip then pickled else pickled ++ [g] in
      match table !! i with
      | None => Raise IndexError
      | Some old =>
          let! s := (match psca with Some s => Ok s | None => Raise TypeError end) in
          let! d := (match pdither with Some d => Ok d | None => Raise TypeError end) in
          simulate c prm psca pdither rest (S i)
            (<[i := fill_row c s d g old]> table) pickled
      end
  end.

(** What one worker brings to [iterate_image]: the catalogue lengths, the
    renderer's results per class, the memory behind [np.empty] and the
    accumulator [draw_image.im] as it stands when the loops are over. *)
Record worker : Type := {
  gal_length : nat;
  gal_results : list (option obj);
  gal_junk : nat -> row;
  star_list : nat;
  star_length : nat;
  star_results : list (option obj);
  star_junk : nat -> row;
  supernova_list : nat;
  supernova_length : nat;
  supernova_results : list (option obj);
  supernova_junk : nat -> row;
  im : image
}.

(** The local variables of [iterate_image] after the three loops; [None]
    is a table that was never assigned. *)
Record locals : Type := {
  index_table : option (list row);
  index_table_star : option (list row);
  index_table_sn : option (list row);
  stream : list obj;
  stream_star : list obj;
  stream_sn : list obj
}.

(** Lines 134-302: file names and the three loops. Building the file names
    concatenates [self.pointing.filter] with a string. *)
Definition simulate_classes (prm : gmap string pyval) (p : Telescope.pointing)
  (w : worker) : result locals :=
  let! _filter := (match Telescope.filter p with
                   | Some f => Ok f
                   | None => Raise TypeError
                   end) in
  let! _out := getitem prm "out_path" in
  let! _meds := getitem prm "output_meds" in
  let psca := Telescope.sca p in
  let pdither := Telescope.dither p in
  let! g :=
    (if negb (Nat.eqb (gal_length w) 0)
     then let! r := simulate Galaxy prm psca pdither (gal_results w) 0
                      (np_empty (gal_junk w) (gal_length w)) [] in
          Ok (Some (fst r), snd r)
     else Ok (None, [])) in
  let! s :=
    (if negb (Nat.eqb (star_list w) 0)
     then let! r := simulate Star prm psca pdither (star_results w) 0
                      (np_empty (star_junk w) (star_length w)) [] in
          Ok (Some (fst r), snd r)
     else Ok (None, [])) in
  let! n :=
    (if negb (Nat.eqb (supernova_list w) 0)
     then let! r := simulate Supernova prm psca pdither (supernova_results w) 0
                      (np_empty (supernova_junk w) (supernova_length w)) [] in
          Ok (Some (fst r), snd r)
     else Ok (None, [])) in
  Ok {| index_table := fst g; index_table_star := fst s; index_table_sn := fst n;
        stream := snd g; stream_star := snd s; stream_sn := snd n |}.

(** The test [(self.cats.get_gal_length()==0) and (len(tmp)==0)] of lines
    322 and 332; [tmp] is then the supernova list. *)
Definition nothing_to_save (w : worker) : bool :=
  Nat.eqb (gal_length w) 0 && Nat.eqb (supernova_list w) 0.

(** [im1 + im2] on images of one shape. *)
Fixpoint image_add (a b : image) : result image :=
  match a, b with
  | [], [] => Ok []
  | p :: a', q :: b' => let! r := image_add a' b' in Ok ((p + q) :: r)
  | _, _ => Raise ValueError
  end.

(** What rank [i] puts on the wire for rank 0: nothing if it raised in its
    loops or left through the early [return]. *)
Definition sent (prm : gmap string pyval) (p : Telescope.pointing) (w : worker)
  : option image :=
  match simulate_classes prm p w with
  | Raise _ => None
  | Ok _ => if nothing_to_save w then None else Some (im w)
  end.

(** [self.comm.Barrier()] seen from rank 0: it returns once every other
    rank has reached it. *)
Fixpoint barrier (prm : gmap string pyval) (p : Telescope.pointing)
  (i : nat) (others : list worker) : result unit :=
  match others with
  | [] => Ok tt
  | w :: rest =>
      match simulate_classes prm p w with
      | Raise _ => Raise (Blocked i)
      | Ok _ => barrier prm p (S i) rest
      end
  end.

(** Lines 338-339: [for i in range(1,self.size): im = im + recv(source=i)].
    A receive from a rank that sends nothing never returns. *)
Fixpoint receive_all (prm : gmap string pyval) (p : Telescope.pointing)
  (i : nat) (others : list worker) (acc : image) : result image :=
  match others with
  | [] => Ok acc
  | w :: rest =>
      match sent prm p w with
      | None => Raise (Blocked i)
      | Some m =>
          let! acc := image_add acc m in
          receive_all prm p (S i) rest acc
      end
  end.

(** [table[table['ind']>-999]] *)
Definition realized (t : list row) : list row :=
  List.filter (fun r => (sentinel <? ind r)%Z) t.

(** What rank 0 has produced when [iterate_image] returns normally. *)
Record written : Type := {
  accumulated : image;
  fits_image : image;
  truth : list row;
  truth_star : list row;
  truth_sn : list row
}.

(** Lines 305-347 on rank 0: the accumulator after the receive loop and the
    image handed to [write_fits]; [None] for the early [return]. *)
Definition reduce_image (e : env) (s : sim) (p : Telescope.pointing)
  (w0 : worker) (others : list worker) : result (option (image * image)) :=
  do! (if comm s then barrier (params s) p 1 others
       else Raise (AttributeError "Barrier")) in
  if nothing_to_save w0 then Ok None
  else
    let! acc := receive_all (params s) p 1 others (im w0) in
    Ok (Some (acc, finalize_sca e acc)).

(** Lines 373-403 on rank 0: the three index tables as written. *)
Definition write_truth (l : locals) : result (list row * list row * list row) :=
  let! t := (match index_table l with
             | Some t => Ok t
             | None => Raise (UnboundLocalError "index_table")
             end) in
  let t := realized t in
  let! ts := (match index_table_star l with
              | Some t => Ok t
              | None => Raise (UnboundLocalError "index_table_star")
              end) in
  let ts := realized ts in
  let! tn := (match index_table_sn l with
              | Some t => Ok t
              | None => Raise (UnboundLocalError "index_table_sn")
              end) in
  let tn := realized tn in
  Ok (t, ts, tn).

(** [iterate_image] on rank 0, with the workers of the other ranks given
    in rank order. *)
Definition iterate_image (e : env) (s : sim) (w0 : worker) (others : list worker)
  : result (option written) :=
  let! p := attr "pointing" (pointing s) in
  let! l := simulate_classes (params s) p w0 in
  let! r := reduce_image e s p w0 others in
  match r with
  | None => Ok None
  | Some (acc, img) =>
      let! t := write_truth l in
      Ok (Some {| accumulated := acc; fits_image := img;
                  truth := fst (fst t); truth_star := snd (fst t);
                  truth_sn := snd t |})
  end.

(** [v == s] for a string literal [s]: only a string can be equal to it. *)
Definition eq_str (v : pyval) (s : string) : bool :=
  match v with
  | PyStr t => String.eqb t s
  | _ => false
  end.

(** The four tests that [__init__] runs on one entry of the loaded
    dictionary, each on the value the tests before it left. *)
Definition parse_value (v : pyval) : pyval :=
  let v := if eq_str v "None" then PyNone else v in
  let v := if eq_str v "none" then PyNone else v in
  let v := if eq_str v "True" then PyBool true else v in
  let v := if eq_str v "False" then PyBool false else v in
  v.

(** The argument of [__init__]: the path of a yaml file, given here by the
    dictionary that [yaml.load] returns for it, or a dictionary. *)
Inductive param_file : Type :=
| Path (loaded : gmap string pyval)
| Dict (d : gmap string pyval).

(** [__init__]; [chdir] is [os.chdir] and [world_rank] is
    [MPI.COMM_WORLD.Get_rank()]. *)
Definition init (chdir : pyval -> result unit) (f : param_file) (world_rank : nat)
  : result sim :=
  let prm :=
    match f with
    | Path loaded =>
        let prm := parse_value <$> loaded in
        if contains prm "condor" then prm else <["condor" := PyBool false]> prm
    | Dict d => d
    end in
  do! (match prm !! "tmpdir" with
       | Some dir => chdir dir
       | None => Ok tt
       end) in
  let! m := getitem prm "mpi" in
  let! on := truthy m in
  Ok {| params := prm; comm := on; rank := if on then world_rank else 0%nat;
        pointing := None; cats := None |}.

(** [hasattr(d,name)] for a dictionary [d] and a name without leading
    underscores: the name of one of the methods of [dict]. *)
Definition hasattr_dict (name : string) : bool :=
  existsb (String.eqb name)
    ["clear"; "copy"; "fromkeys"; "get"; "items"; "keys"; "pop"; "popitem";
     "setdefault"; "update"; "values"].

(** [hasattr(v,'__len__')] *)
Definition has_len (v : pyval) : bool :=
  match v with
  | PyStr _ | PySeq _ => true
  | _ => false
  end.

(** What [get_sca_list] returns: [np.arange(lo,hi)], the configured value
    itself, or a list holding it. *)
Inductive sca_list : Type :=
| Arange (lo hi : Z)
| Given (v : pyval)
| Single (v : pyval).

(** [get_sca_list]. [self.params] is a dictionary, so [hasattr] looks for
    a method of that name; [type(v)==string_types] compares a type with a
    tuple of types and is false for every value. *)
Definition get_sca_list (s : sim) : result sca_list :=
  if hasattr_dict "sca" then
    let! v := getitem (params s) "sca" in
    if is_None v then Ok (Arange 1 19)
    else if eq_str v "None" then Ok (Arange 1 19)
    else if has_len v then Ok (Given v)
    else Ok (Single v)
  else Ok (Arange 1 19).

(** [get_inds], with the position columns of the three catalogues; the
    result is what is handed to [cats.add_mask]. *)
Definition get_inds (e : env) (gals stars supernovae : list (R * R)) (s : sim)
  : result (Telescope.in_sca_answer * Telescope.in_sca_answer * Telescope.in_sca_answer) :=
  match pointing s with
  | None =>
      Raise (ParamError "Sim object has no pointing - need to run sim.setup() first.")
  | Some p =>
      match Telescope.dither p with
      | None =>
          Raise (ParamError
            "Sim pointing object has no dither assigned - need to run sim.pointing.update_dither() first.")
      | Some _ =>
          let! _cats := attr "cats" (cats s) in
          let! mask_sca := Telescope.in_sca (tel e) (Telescope.Batch gals) p in
          let! mask_sca_star := Telescope.in_sca (tel e) (Telescope.Batch stars) p in
          let! mask_sca_supernova :=
            Telescope.in_sca (tel e) (Telescope.Batch supernovae) p in
          Ok (mask_sca, mask_sca_star, mask_sca_supernova)
      end
  end.

End Sim.

(** ** The aberration modes as the specification names them *)

Module Policy.

Import Telescope.
Local Open Scope R_scope.

Inductive mode : Type :=
| ChipGradient
| FocalPlaneGradient
| PerDetectorRandom
| TimeVarying
| NoAberration.

(** The order of the specification: the first enabled mode wins. *)
Definition first_enabled (chip fp rnd osc : bool) : mode :=
  if chip then ChipGradient
  else if fp then FocalPlaneGradient
  else if rnd then PerDetectorRandom
  else if osc then TimeVarying
  else NoAberration.

(** The order of the assignments in [get_psf]: the last one stays. *)
Definition last_assigned (chip fp rnd osc : bool) : mode :=
  if chip then ChipGradient
  else if osc then TimeVarying
  else if rnd then PerDetectorRandom
  else if fp then FocalPlaneGradient
  else NoAberration.

(** The aberrations of one mode taken alone, by the formula of its branch. *)
Definition mode_aberrations (e : env) (st : pointing) (m : mode) : result pyval :=
  match m with
  | ChipGradient =>
      let! u := seed_rand e (sca st) in
      let! a := aberration_array st in
      Ok (PySeq (NdArray (List.map (fun x => x * u * sqrt 3 / (IZR (n_pix e) / 2)) a)))
  | FocalPlaneGradient =>
      let! i := sca_minus_1 st in
      let! c := py_index (sca_center e) i in
      let! a := aberration_array st in
      Ok (PySeq (NdArray (List.map (fun x => snd c * x * sqrt 3 / 88.115) a)))
  | PerDetectorRandom =>
      let! u := seed_rand e (sca st) in
      let! a := aberration_array st in
      Ok (PySeq (NdArray (scale a u)))
  | TimeVarying =>
      let! a := aberration_array st in
      let! t := time_aberration e st in
      Ok (PySeq (NdArray (scale a t)))
  | NoAberration => Ok (extra_aberrations st)
  end.

(** The flag of the chip-gradient mode, absent meaning off. *)
Definition chip_flag (st : pointing) : result bool :=
  flag (params st) "random_aberration_gradient".

(** Where the aberrations end up: in [self.extra_aberrations] under the
    chip-gradient mode, else in the call of [wfirst.getPSF]. *)
Definition in_effect (chip : bool) (st' : pointing) (v : pyval) : Prop :=
  if chip
  then PSF st' = None /\ extra_aberrations st' = v
  else exists c, PSF st' = Some (WfirstPSF c) /\ psf_extra_aberrations c = v.

(** The same with the key [gauss_psf] taken into account: outside the
    chip-gradient mode a dictionary with that key makes [get_psf] store
    the Gaussian, or nothing new when the value is [None], and the
    aberrations computed from the flags are not used; [st] is the state
    before the call. *)
Definition applied (chip : bool) (gauss : option pyval) (st st' : pointing)
  (v : pyval) : Prop :=
  if chip
  then PSF st' = None /\ extra_aberrations st' = v
  else match gauss with
       | None => exists c, PSF st' = Some (WfirstPSF c) /\ psf_extra_aberrations c = v
       | Some g =>
           extra_aberrations st' = extra_aberrations st /\
           (g = PyNone -> PSF st' = PSF st) /\
           (g <> PyNone -> exists r, as_num g = Ok r /\ PSF st' = Some (GaussianPSF r))
       end.

(** The aberrations handed to [wfirst.getPSF] for a stored PSF. *)
Definition aberrations_passed (p : option psf) : option pyval :=
  match p with
  | Some (WfirstPSF c) => Some (psf_extra_aberrations c)
  | _ => None
  end.

(** Whether the smearing kernel is still there after lines 156-160 when
    the draw is [u]. *)
Definition kernel_kept (e : env) (st : pointing) (u : R) : bool :=
  let e' := {| dither_file := dither_file e;
               filter_dither_dict_ := filter_dither_dict_ e;
               getBandpasses := getBandpasses e;
               n_pix := n_pix e;
               sca_center := sca_center e;
               cptr := cptr e;
               rand_seeded := fun _ => u;
               rand_unseeded := u;
               ft_interp := ft_interp e;
               toWorld := toWorld e |} in
  match random_los_motion e' st with
  | Ok st' => match los_motion st' with Some _ => true | None => false end
  | Raise _ => false
  end.

(** [N] equally spaced draws of the unit interval: 0, 1/N, ..., (N-1)/N. *)
Definition draws (N : nat) : list R :=
  List.map (fun k => INR k / INR N) (seq 0 N).




(** The results of the renderer that are not [None], in order. *)
Fixpoint non_null (results : list (option Sim.obj)) : list Sim.obj :=
  match results with
  | [] => []
  | None :: rest => non_null rest
  | Some g :: rest => g :: non_null rest
  end.

(** The strings that [wfirst_sim.__init__] replaces in a loaded file. *)
Definition keyword (v : pyval) : Prop :=
  v = PyStr "None" \/ v = PyStr "none" \/ v = PyStr "True" \/ v = PyStr "False".

End Policy.

(** ** The states that the methods of [pointing] can produce *)

Module Lifecycle.

Import Telescope.

(** A pointing as the class itself can make it: built by [__init__] and
    then changed by any sequence of its mutating methods. *)
Inductive reachable (e : env) : pointing -> Prop :=
| reach_init prm filter_ sca dither sca_pos r rk st :
    init e prm filter_ sca dither sca_pos r rk = Ok st ->
    reachable e st
| reach_get_bpass st filter_ st' :
    reachable e st -> get_bpass e filter_ st = Ok st' -> reachable e st'
| reach_update_dither st d st' :
    reachable e st -> update_dither e d st = Ok st' -> reachable e st'
| reach_update_sca st s st' :
    reachable e st -> update_sca e s st = Ok st' -> reachable e st'
| reach_get_wcs st st' :
    reachable e st -> get_wcs st = Ok st' -> reachable e st'
| reach_get_psf st sca_pos high_accuracy st' :
    reachable e st -> get_psf e sca_pos high_accuracy st = Ok st' -> reachable e st'.

End Lifecycle.

(** ** Concrete inputs used by the examples *)

Module Examples.

Import Telescope.
Local Open Scope R_scope.

(** A schedule with one pointing at the origin of the sky, in filter 1. *)
Definition row0 : dither_row :=
  {| d_ra := 0; d_dec := 0; d_pa := 0; d_date := 59000; d_filter := 1 |}.

Definition env0 : env :=
  {| dither_file := [row0];
     filter_dither_dict_ := {[ 1%Z := "H158" ]};
     getBandpasses := {[ "H158" := {| effective_wavelength := 1576 |} ]};
     n_pix := 4088;
     sca_center := [];
     cptr := [];
     rand_seeded := fun _ => 1 / 2;
     rand_unseeded := 0;
     ft_interp := fun _ => Some 1293;
     toWorld := fun w _ => (world_ra w, world_dec w) |}.



(** The required keys of the parameter file. *)
Definition params0 : gmap string pyval :=
  <["dither_file" := PyStr "dither.fits"]>
  (<["n_waves" := PyInt 10]>
  (<["approximate_struts" := PyBool true]>
  (<["extra_aberrations" := PySeq (PyList [1])]>
  (<["chip_enlarge" := PyNum 0.01]>
  (<["random_seed" := PyInt 1]>
  (<["skip_stamps" := PyBool false]>
  (<["out_path" := PyStr "out"]>
  (<["output_meds" := PyStr "run"]> ∅)))))))).

(** A pointing with nothing bound, as [__init__] leaves it when called
    without filter, SCA and dither. *)
Definition unbound (prm : gmap string pyval) (r : R) : pointing :=
  {| params := prm; n_waves := PyInt 10; approximate_struts := PyBool true;
     extra_aberrations := PySeq (PyList [1]); rank := Some 0%Z;
     sca := None; PSF := None; PSF_high := None; WCS := None; dither := None;
     filter := None; bpass := None; los_motion := None; pose := None;
     sca_pose := None; mjd := None; bore := Some r; sbore2 := Some (sin (r / 2));
     chip_enlarge := Some (PyNum 0.01) |}.

(** A pointing bound to dither 0 and detector 1 in filter H158, before
    any PSF is built. *)
Definition bound (prm : gmap string pyval) : pointing :=
  set_sca (Some 1%Z)
    (set_bpass (Some {| effective_wavelength := 1576 |})
       (set_filter (Some "H158")
          (set_pose (Some (mk_pose row0))
             (set_dither (Some 0%Z) (unbound prm 0.009))))).

(** The surroundings of [env0] with a table [cptr] for one detector whose
    four edge tests read 0 < 1 + chip_enlarge. *)
Definition env_chip : env :=
  {| dither_file := dither_file env0;
     filter_dither_dict_ := filter_dither_dict_ env0;
     getBandpasses := getBandpasses env0;
     n_pix := n_pix env0;
     sca_center := sca_center env0;
     cptr := [0; 0; 1; 0; 0; 1; 0; 0; 1; 0; 0; 1];
     rand_seeded := rand_seeded env0;
     rand_unseeded := rand_unseeded env0;
     ft_interp := ft_interp env0;
     toWorld := toWorld env0 |}.

(** The surroundings of [wfirst_sim] with a catalogue provider that
    always answers [c]. *)
Definition sim_env (c : Sim.catalogs) : Sim.env :=
  {| Sim.tel := env0;
     Sim.filter_dither_dict := {[ "H158" := 1%Z ]};
     Sim.init_catalogs := fun _ _ => c;
     Sim.finalize_sca := fun img => img |}.

(** [os.chdir] on a machine where every directory named exists: only a
    path is accepted. *)
Definition chdir (dir : pyval) : result unit :=
  match dir with
  | PyStr _ => Ok tt
  | _ => Raise TypeError
  end.

(** A simulation object on rank 0 of an MPI run, before [setup]. *)
Definition sim0 : Sim.sim :=
  {| Sim.params := params0; Sim.comm := true; Sim.rank := 0;
     Sim.pointing := None; Sim.cats := None |}.

(** The same after [setup] for dither 5 on detector 3. *)
Definition sim1 : Sim.sim :=
  {| Sim.params := params0; Sim.comm := true; Sim.rank := 0;
     Sim.pointing :=
       Some (set_sca (Some 3%Z)
               (set_filter (Some "H158")
                  (set_dither (Some 5%Z) (unbound params0 0.009))));
     Sim.cats := None |}.

Definition blank : Sim.row :=
  {| Sim.ind := 0; Sim.sca := 0; Sim.dither := 0;
     Sim.x := 0; Sim.y := 0; Sim.ra := 0; Sim.dec := 0; Sim.mag := 0;
     Sim.stamp := 0 |}.

Definition object (i : Z) : Sim.obj :=
  {| Sim.o_ind := i; Sim.o_x := 1; Sim.o_y := 2; Sim.o_ra := 0; Sim.o_dec := 0;
     Sim.o_mag := 20; Sim.o_stamp := 32; Sim.o_hostid := 7 |}.

(** A worker with two galaxy candidates, one of which the renderer drops,
    one star and one supernova, and an accumulator of [n] pixels equal to 1. *)
Definition worker1 (n : nat) : Sim.worker :=
  {| Sim.gal_length := 2;
     Sim.gal_results := [None; Some (object 41)];
     Sim.gal_junk := fun _ => blank;
     Sim.star_list := 1;
     Sim.star_length := 1;
     Sim.star_results := [Some (object 42)];
     Sim.star_junk := fun _ => blank;
     Sim.supernova_list := 1;
     Sim.supernova_length := 1;
     Sim.supernova_results := [Some (object 43)];
     Sim.supernova_junk := fun _ => blank;
     Sim.im := repeat 1 n |}.

(** A worker whose share of the catalogue holds no galaxy and no
    supernova. *)
Definition idle (n : nat) : Sim.worker :=
  {| Sim.gal_length := 0;
     Sim.gal_results := [];
     Sim.gal_junk := fun _ => blank;
     Sim.star_list := 1;
     Sim.star_length := 1;
     Sim.star_results := [Some (object 42)];
     Sim.star_junk := fun _ => blank;
     Sim.supernova_list := 0;
     Sim.supernova_length := 0;
     Sim.supernova_results := [];
     Sim.supernova_junk := fun _ => blank;
     Sim.im := repeat 1 n |}.

End Examples.

(** * Properties *)

Import Telescope.

(** ** The exception monad *)

Lemma bind_ok_inv {A B : Type} (m : result A) (k : A -> result B) (b : B) :
  Py.bind m k = Ok b -> exists a, m = Ok a /\ k a = Ok b.
Proof.
  destruct m as [err | a]; simpl; intros H.
  - discriminate H.
  - exists a. split; [reflexivity | exact H].
Qed.

Tactic Notation "inv_bind" hyp(H) "as" ident(a) ident(Ha) :=
  apply bind_ok_inv in H; destruct H as (a & Ha & H).

Example init_unbound :
  init Examples.env0 Examples.params0 None None None None 0.009 (Some 0%Z)
  = Ok (Examples.unbound Examples.params0 0.009).
Proof. reflexivity. Qed.

(** ** Binding order: [update_sca] and [in_sca] *)

(** [get_wcs] fails on its first attribute read when no dither was bound. *)
Lemma get_wcs_unbound (st : pointing) :
  pose st = None -> get_wcs st = Raise (AttributeError "ra").
Proof. intros H. unfold get_wcs. rewrite H. reflexivity. Qed.

(** Whatever the SCA, [update_sca] on a pointing without a dither ends in
    the [AttributeError] of [get_wcs]. *)
Lemma update_sca_unbound (e : env) (s : Z) (st : pointing) :
  pose st = None -> update_sca e s st = Raise (AttributeError "ra").
Proof.
  intros H. unfold update_sca.
  rewrite get_wcs_unbound; [reflexivity | exact H].
Qed.

(** The sibling check: [in_sca] tests the binding itself and raises the
    package's own [ParamError]. *)
Lemma in_sca_unbound (e : env) (c : coords) (st : pointing) :
  dither st = None ->
  in_sca e c st = Raise (ParamError "No dither defined to check ra, dec against.").
Proof. intros H. unfold in_sca. rewrite H. reflexivity. Qed.

(** C5, at the failing input: a pointing built without filter, SCA and
    dither, then [update_sca(1)]. The call raises [AttributeError] for the
    attribute [ra], not the error class that the package raises for a
    missing binding. *)
Theorem update_sca_before_dither :
  (let! st := init Examples.env0 Examples.params0 None None None None 0.009 (Some 0%Z) in
   update_sca Examples.env0 1 st)
  = Raise (AttributeError "ra").
Proof. reflexivity. Qed.

(** ** [update_dither] and the filter *)

Lemma get_bpass_ok (e : env) (f : string) (st st' : pointing) :
  get_bpass e f st = Ok st' ->
  exists b, getBandpasses e !! f = Some b /\
            st' = set_bpass (Some b) (set_filter (Some f) st).
Proof.
  unfold get_bpass. destruct (getBandpasses e !! f) as [b |] eqn:Hb; intros H.
  - injection H as <-. exists b. split; reflexivity.
  - discriminate H.
Qed.

(** C10: a successful [update_dither] leaves a filter that was already set,
    and its bandpass, as they were, for every dither index; when no filter
    was set, the filter is the one the schedule records for the row, with
    the bandpass looked up for it. *)
Theorem update_dither_filter (e : env) (d : Z) (st st' : pointing) :
  update_dither e d st = Ok st' ->
  (forall f, filter st = Some f -> filter st' = Some f /\ bpass st' = bpass st) /\
  (filter st = None ->
   exists row name b,
     fits_row e d = Ok row /\
     filter_dither_dict_ e !! d_filter row = Some name /\
     getBandpasses e !! name = Some b /\
     filter st' = Some name /\ bpass st' = Some b).
Proof.
  unfold update_dither. intros H. inv_bind H as a Ha. simpl in H.
  destruct (filter st) as [f0 |] eqn:Hf.
  - injection H as <-. split.
    + intros f [= <-]. split; [exact Hf | reflexivity].
    + intros Hn. discriminate Hn.
  - split.
    + intros f Hn. discriminate Hn.
    + intros _.
      destruct (filter_dither_dict_ e !! d_filter a) as [name |] eqn:Hname;
        [| discriminate H].
      apply get_bpass_ok in H. destruct H as (b & Hb & ->).
      exists a, name, b. repeat split; assumption || reflexivity.
Qed.

(** C10 at a pointing whose filter was fixed to F184 before the call. *)
Lemma update_dither_filter_witness :
  exists st',
    update_dither Examples.env0 0
      (set_filter (Some "F184") (Examples.unbound Examples.params0 0.009)) = Ok st' /\
    filter st' = Some "F184".
Proof.
  eexists. split.
  - reflexivity.
  - eapply (update_dither_filter Examples.env0 0
              (set_filter (Some "F184") (Examples.unbound Examples.params0 0.009))).
    + reflexivity.
    + reflexivity.
Defined.

(** ** [load_psf] under the chip-gradient mode *)

Import Policy.

Lemma seed_rand_Some (e : env) (s : Z) (u : R) :
  seed_rand e (Some s) = Ok u -> u = rand_seeded e s.
Proof.
  unfold seed_rand.
  destruct ((0 <=? s)%Z && (s <? 2 ^ 32)%Z); intros H.
  - injection H as <-. reflexivity.
  - discriminate H.
Qed.

(** C9: under the chip-gradient mode the pixel coordinate that scales the
    aberrations in [load_psf] is picked by the detector alone: for a
    detector [s] there is one axis, horizontal or vertical, that every call
    on a pointing bound to [s] uses, whatever the object position. *)
Theorem load_psf_axis_per_detector (e : env) (s : Z) :
  exists axis : position -> Z,
    (axis = pos_x \/ axis = pos_y) /\
    forall (st : pointing) (pos : position) (star : bool) (sca_pos : option position)
           (high_accuracy : bool) (g : pyval) (r : option psf),
      sca st = Some s ->
      getitem (params st) "random_aberration_gradient" = Ok g ->
      truthy g = Ok true ->
      load_psf e pos star sca_pos high_accuracy st = Ok r ->
      exists c,
        r = Some (WfirstPSF c) /\
        py_times (extra_aberrations st)
                 (IZR (axis pos) - IZR (n_pix e) / 2 + 0.5)%R
        = Ok (psf_extra_aberrations c).
Proof.
  exists (if Rgt_dec (rand_seeded e s) 0.5 then pos_x else pos_y).
  split.
  - destruct (Rgt_dec (rand_seeded e s) 0.5); [left | right]; reflexivity.
  - intros st pos star sca_pos ha g r Hs Hg Ht H.
    unfold load_psf in H. rewrite Hg in H. simpl in H. rewrite Ht in H. simpl in H.
    rewrite Hs in H. inv_bind H as u Hu. apply seed_rand_Some in Hu. subst u.
    inv_bind H as b Hb. inv_bind H as v Hv. injection H as <-.
    eexists. split; [reflexivity |]. simpl.
    rewrite <- Hv. destruct (Rgt_dec (rand_seeded e s) 0.5); reflexivity.
Qed.

(** C9 on detector 1 at two object positions. *)
Lemma load_psf_axis_per_detector_witness :
  let st :=
    set_extra_aberrations (PySeq (NdArray [1%R]))
      (set_bpass (Some {| effective_wavelength := 1576 |})
         (set_sca (Some 1%Z)
            (Examples.unbound
               (<["random_aberration_gradient" := PyBool true]> Examples.params0)
               0.009))) in
  let p1 := {| pos_x := 10; pos_y := 20 |} in
  let p2 := {| pos_x := 300; pos_y := 4000 |} in
  exists axis c1 c2,
    (axis = pos_x \/ axis = pos_y) /\
    load_psf Examples.env0 p1 false None false st = Ok (Some (WfirstPSF c1)) /\
    load_psf Examples.env0 p2 false None false st = Ok (Some (WfirstPSF c2)) /\
    psf_extra_aberrations c1
    = PySeq (NdArray [(1 * (IZR (axis p1) - IZR 4088 / 2 + 0.5))%R]) /\
    psf_extra_aberrations c2
    = PySeq (NdArray [(1 * (IZR (axis p2) - IZR 4088 / 2 + 0.5))%R]).
Proof.
  intros st p1 p2.
  destruct (load_psf_axis_per_detector Examples.env0 1) as (axis & Hax & H).
  assert (H1 : exists r, load_psf Examples.env0 p1 false None false st = Ok r).
  { unfold load_psf. simpl. destruct (Rgt_dec _ _); eexists; reflexivity. }
  assert (H2 : exists r, load_psf Examples.env0 p2 false None false st = Ok r).
  { unfold load_psf. simpl. destruct (Rgt_dec _ _); eexists; reflexivity. }
  destruct H1 as (r1 & H1). destruct H2 as (r2 & H2).
  destruct (H st p1 false None false (PyBool true) r1 eq_refl eq_refl eq_refl H1)
    as (c1 & -> & E1).
  destruct (H st p2 false None false (PyBool true) r2 eq_refl eq_refl eq_refl H2)
    as (c2 & -> & E2).
  exists axis, c1, c2.
  simpl in E1, E2. injection E1 as E1. injection E2 as E2.
  repeat split; try assumption; symmetry; assumption.
Defined.

(** ** [get_psf]: what each group of statements changes *)

Lemma set_los_motion_same (st : pointing) : set_los_motion (los_motion st) st = st.
Proof. destruct st; reflexivity. Qed.

(** Lines 144-153 touch [self.los_motion] only. *)
Lemma smearing_frame (st st' : pointing) :
  smearing st = Ok st' -> exists k, st' = set_los_motion k st.
Proof.
  unfold smearing. intros H.
  destruct (params st !! "los_motion") as [lm |].
  - inv_bind H as st1 H1.
    assert (F1 : exists k, st1 = set_los_motion k st).
    { destruct (is_not_None lm).
      - inv_bind H1 as r Hr. injection H1 as <-. eexists; reflexivity.
      - injection H1 as <-. exists (los_motion st). symmetry. apply set_los_motion_same. }
    destruct F1 as (k1 & ->).
    destruct (params st !! "los_motion_e1") as [e1 |];
      [| injection H as <-; eexists; reflexivity].
    destruct (params st !! "los_motion_e2") as [e2 |];
      [| injection H as <-; eexists; reflexivity].
    inv_bind H as st2 H2.
    destruct (is_None e1 || is_None e2); [discriminate H |].
    injection H as <-.
    destruct (is_not_None e1 && is_not_None e2).
    + inv_bind H2 as p Hp. inv_bind H2 as g1 Hg1. inv_bind H2 as g2 Hg2.
      injection H2 as <-. eexists; reflexivity.
    + injection H2 as <-. eexists; reflexivity.
  - injection H as <-. exists (los_motion st). symmetry. apply set_los_motion_same.
Qed.

(** Lines 156-160 touch [self.los_motion] only. *)
Lemma random_los_motion_frame (e : env) (st st' : pointing) :
  random_los_motion e st = Ok st' -> exists k, st' = set_los_motion k st.
Proof.
  unfold random_los_motion. intros H. inv_bind H as on Hon.
  destruct on.
  - inv_bind H as u Hu. destruct (Rgt_dec u 0.15); injection H as <-.
    + eexists; reflexivity.
    + exists (los_motion st). symmetry. apply set_los_motion_same.
  - injection H as <-. exists (los_motion st). symmetry. apply set_los_motion_same.
Qed.

Lemma gradient_step (e : env) (st : pointing) (ea a : option pyval) (fp : bool) :
  flag (params st) "gradient_aberration" = Ok fp ->
  gradient_aberration e st ea = Ok a ->
  if fp
  then exists v, mode_aberrations e st FocalPlaneGradient = Ok v /\ a = Some v
  else a = ea.
Proof.
  unfold gradient_aberration. intros -> H. simpl in H. destruct fp.
  - inv_bind H as i Hi. inv_bind H as c Hc. inv_bind H as l Hl. injection H as <-.
    eexists. split; [| reflexivity].
    simpl. rewrite Hi. simpl. rewrite Hc. simpl. rewrite Hl. reflexivity.
  - injection H as <-. reflexivity.
Qed.

Lemma random_step (e : env) (st : pointing) (ea a : option pyval) (rnd : bool) :
  flag (params st) "random_aberration" = Ok rnd ->
  random_aberration e st ea = Ok a ->
  if rnd
  then exists v, mode_aberrations e st PerDetectorRandom = Ok v /\ a = Some v
  else a = ea.
Proof.
  unfold random_aberration. intros -> H. simpl in H. destruct rnd.
  - inv_bind H as u Hu. inv_bind H as l Hl. injection H as <-.
    eexists. split; [| reflexivity].
    simpl. rewrite Hu. simpl. rewrite Hl. reflexivity.
  - injection H as <-. reflexivity.
Qed.

Lemma oscillating_step (e : env) (st : pointing) (ea a : option pyval) (osc : bool) :
  flag (params st) "oscillating_aberration" = Ok osc ->
  oscillating_aberration e st ea = Ok a ->
  if osc
  then exists v, mode_aberrations e st TimeVarying = Ok v /\ a = Some v
  else a = ea.
Proof.
  unfold oscillating_aberration. intros -> H. simpl in H. destruct osc.
  - inv_bind H as l Hl. inv_bind H as t Ht. injection H as <-.
    eexists. split; [| reflexivity].
    simpl. rewrite Hl. simpl. rewrite Ht. reflexivity.
  - injection H as <-. reflexivity.
Qed.

(** Lines 163-168: under the chip-gradient mode the local aberrations are
    replaced; in every case the key exists afterwards with the truth value
    of the mode. *)
Lemma chip_step (e : env) (st : pointing) (ea : option pyval)
  (r : pointing * option pyval) (chip : bool) :
  chip_flag st = Ok chip ->
  random_aberration_gradient e st ea = Ok r ->
  (exists prm g, fst r = set_params prm st /\
                 getitem prm "random_aberration_gradient" = Ok g /\
                 truthy g = Ok chip /\
                 prm !! "gauss_psf" = params st !! "gauss_psf") /\
  if chip
  then exists v, mode_aberrations e st ChipGradient = Ok v /\ snd r = Some v
  else snd r = ea.
Proof.
  unfold chip_flag, flag, random_aberration_gradient. intros Hc H.
  destruct (params st !! "random_aberration_gradient") as [g |] eqn:Hg.
  - rewrite Hc in H. simpl in H.
    assert (F : exists prm g0, st = set_params prm st /\
                 getitem prm "random_aberration_gradient" = Ok g0 /\
                 truthy g0 = Ok chip /\
                 prm !! "gauss_psf" = params st !! "gauss_psf").
    { exists (params st), g. repeat split.
      - destruct st; reflexivity.
      - unfold getitem. rewrite Hg. reflexivity.
      - exact Hc. }
    destruct chip.
    + inv_bind H as u Hu. inv_bind H as l Hl. injection H as <-. split.
      * exact F.
      * eexists. split; [| reflexivity].
        simpl. rewrite Hu. simpl. rewrite Hl. reflexivity.
    + injection H as <-. split; [exact F | reflexivity].
  - injection Hc as <-. injection H as <-. split; [| reflexivity].
    exists (<["random_aberration_gradient" := PyBool false]> (params st)), (PyBool false).
    repeat split.
    + unfold getitem. rewrite lookup_insert_eq. reflexivity.
    + rewrite lookup_insert_ne; [reflexivity | discriminate].
Qed.

(** Lines 171-194: where the aberrations computed above end up. *)
Lemma store_cases (sp : option position) (ha : bool) (st st' : pointing)
  (ea : option pyval) (g : pyval) (chip : bool) :
  getitem (params st) "random_aberration_gradient" = Ok g ->
  truthy g = Ok chip ->
  store_psf sp ha st ea = Ok st' ->
  applied chip (params st !! "gauss_psf") st st'
    (match ea with Some a => a | None => extra_aberrations st end).
Proof.
  unfold store_psf, applied. intros -> Ht H. simpl in H.
  rewrite Ht in H. simpl in H. destruct chip.
  - injection H as <-. split; reflexivity.
  - destruct (params st !! "gauss_psf") as [gv |].
    + destruct gv; simpl in H; try discriminate H.
      * injection H as <-. repeat split. intros Hn. contradiction Hn. reflexivity.
      * injection H as <-. repeat split; [intros Hn; discriminate Hn |].
        intros _. eexists. split; reflexivity.
      * injection H as <-. repeat split; [intros Hn; discriminate Hn |].
        intros _. eexists. split; reflexivity.
      * injection H as <-. repeat split; [intros Hn; discriminate Hn |].
        intros _. eexists. split; reflexivity.
    + inv_bind H as b Hb. injection H as <-. eexists. split; reflexivity.
Qed.

(** ** The aberration that [get_psf] applies *)

(** C1 as the code has it: when [get_psf] succeeds, the aberrations it
    has computed are those of one mode, picked among the enabled ones in
    the order chip-gradient, time-varying, per-detector-random,
    focal-plane-gradient, none: each enabled branch overwrites the result
    of the branches before it. Under the chip-gradient mode they are
    stored in [self.extra_aberrations]; otherwise they are passed to
    [wfirst.getPSF], unless the dictionary has the key [gauss_psf], in
    which case they are not used at all. With per-detector-random and
    time-varying both enabled the time-varying factor is the one
    computed. *)
Theorem get_psf_last_assignment_wins (e : env) (sp : option position) (ha : bool)
  (st st' : pointing) (chip fp rnd osc : bool) :
  chip_flag st = Ok chip ->
  flag (params st) "gradient_aberration" = Ok fp ->
  flag (params st) "random_aberration" = Ok rnd ->
  flag (params st) "oscillating_aberration" = Ok osc ->
  get_psf e sp ha st = Ok st' ->
  exists v,
    mode_aberrations e st (last_assigned chip fp rnd osc) = Ok v /\
    applied chip (params st !! "gauss_psf") st st' v.
Proof.
  intros Hchip Hfp Hrnd Hosc H.
  unfold get_psf in H.
  inv_bind H as a1 H1. inv_bind H as a2 H2. inv_bind H as a3 H3.
  inv_bind H as st1 Hs1. inv_bind H as st2 Hs2. inv_bind H as r Hr.
  apply (gradient_step _ _ _ _ fp Hfp) in H1.
  apply (random_step _ _ _ _ rnd Hrnd) in H2.
  apply (oscillating_step _ _ _ _ osc Hosc) in H3.
  apply smearing_frame in Hs1. destruct Hs1 as (k1 & ->).
  apply random_los_motion_frame in Hs2. destruct Hs2 as (k2 & ->).
  assert (Hchip2 : chip_flag (set_los_motion k2 (set_los_motion k1 st)) = Ok chip)
    by exact Hchip.
  apply (chip_step _ _ _ _ chip Hchip2) in Hr.
  destruct Hr as ((prm & g & Hfst & Hg & Ht & Hgp) & Hsnd).
  rewrite Hfst in H.
  apply (store_cases sp ha (set_params prm (set_los_motion k2 (set_los_motion k1 st)))
           st' (snd r) g chip Hg Ht) in H.
  simpl in H. simpl in Hgp. rewrite Hgp in H.
  assert (Happ : forall v,
             applied chip (params st !! "gauss_psf")
               (set_params prm (set_los_motion k2 (set_los_motion k1 st))) st' v ->
             applied chip (params st !! "gauss_psf") st st' v)
    by (intros v Hv; exact Hv).
  apply Happ in H. clear Happ.
  unfold last_assigned. destruct chip.
  - destruct Hsnd as (v & Hv & Hsnd). rewrite Hsnd in H. exists v. split; assumption.
  - rewrite Hsnd in H. destruct osc.
    + destruct H3 as (v & Hv & ->). exists v. split; assumption.
    + subst a3. destruct rnd.
      * destruct H2 as (v & Hv & ->). exists v. split; assumption.
      * subst a2. destruct fp.
        -- destruct H1 as (v & Hv & ->). exists v. split; assumption.
        -- subst a1. eexists. split; [reflexivity | exact H].
Qed.

(** The theorem above on detector 1 with the per-detector-random and the
    time-varying flags both set, once without the key [gauss_psf] and once
    with it. *)
Lemma get_psf_last_assignment_wins_witness :
  let prm := <["random_aberration" := PyBool true]>
             (<["oscillating_aberration" := PyBool true]> Examples.params0) in
  let st := Examples.bound prm in
  let st_gauss := Examples.bound (<["gauss_psf" := PyNum 0.1]> prm) in
  exists st' st_gauss' v,
    get_psf Examples.env0 None false st = Ok st' /\
    get_psf Examples.env0 None false st_gauss = Ok st_gauss' /\
    mode_aberrations Examples.env0 st TimeVarying = Ok v /\
    in_effect false st' v /\
    PSF st_gauss' = Some (GaussianPSF 0.1).
Proof.
  intros prm st st_gauss.
  assert (H : exists st', get_psf Examples.env0 None false st = Ok st')
    by (eexists; vm_compute; reflexivity).
  destruct H as (st' & H).
  assert (Hg : exists st', get_psf Examples.env0 None false st_gauss = Ok st')
    by (eexists; vm_compute; reflexivity).
  destruct Hg as (st_gauss' & Hg).
  destruct (get_psf_last_assignment_wins Examples.env0 None false st st'
              false false true true eq_refl eq_refl eq_refl eq_refl H)
    as (v & Hv & Heff).
  destruct (get_psf_last_assignment_wins Examples.env0 None false st_gauss st_gauss'
              false false true true eq_refl eq_refl eq_refl eq_refl Hg)
    as (v' & _ & Heff').
  exists st', st_gauss', v.
  split; [exact H |]. split; [exact Hg |]. split; [exact Hv |]. split; [exact Heff |].
  assert (E : params st_gauss !! "gauss_psf" = Some (PyNum 0.1)) by reflexivity.
  rewrite E in Heff'. destruct Heff' as (_ & _ & Hpsf).
  destruct (Hpsf ltac:(discriminate)) as (r & Hr & ->).
  injection Hr as <-. reflexivity.
Defined.

(** C1 as stated fails: a pointing of the one-row schedule bound to
    detector 1 with per-detector-random and time-varying both enabled gets
    the time-varying factor (1293/1293 here), not the random draw of the
    detector (1/2 here) that the first-enabled order asks for. *)
Lemma random_and_time_varying_counterexample :
  let prm := <["random_aberration" := PyBool true]>
             (<["oscillating_aberration" := PyBool true]> Examples.params0) in
  let run :=
    (let! st := init Examples.env0 prm None None (Some 0%Z) None 0.009 (Some 0%Z) in
     update_sca Examples.env0 1 st) in
  (let! st' := run in Ok (aberrations_passed (PSF st')))
  = Ok (Some (PySeq (NdArray [(1 * (1293 / 1293))%R]))) /\
  (let! st' := run in
   mode_aberrations Examples.env0 st' (first_enabled false false true true))
  = Ok (PySeq (NdArray [(1 * (1 / 2))%R])) /\
  PySeq (NdArray [(1 * (1293 / 1293))%R]) <> PySeq (NdArray [(1 * (1 / 2))%R]).
Proof.
  intros prm run. split; [| split].
  - vm_compute. reflexivity.
  - vm_compute. reflexivity.
  - intros H. injection H as H. lra.
Qed.

(** ** Asymmetric smearing with one shear component *)

(** The check of lines 149-153 in isolation: with the key [los_motion]
    and both shear keys in the dictionary, one shear value [None] and the
    other not, [smearing] raises the [ParamError]. *)
Lemma smearing_partial_shear (st : pointing) (lm e1 e2 : pyval) :
  params st !! "los_motion" = Some lm ->
  (lm = PyNone \/ exists r, as_num lm = Ok r) ->
  params st !! "los_motion_e1" = Some e1 ->
  params st !! "los_motion_e2" = Some e2 ->
  is_None e1 = negb (is_None e2) ->
  smearing st = Raise (ParamError "Must provide both los motion e1 and e2.").
Proof.
  intros Hlm Hnum H1 H2 Hx. unfold smearing. rewrite Hlm.
  assert (F : exists st1,
             (if is_not_None lm
              then let! r := as_num lm in
                   Ok (set_los_motion
                         (Some (Gaussian (2 * sqrt (2 * ln 2) * r)%R)) st)
              else Ok st) = Ok st1 /\ params st1 = params st).
  { destruct Hnum as [-> | (r & Hr)].
    - exists st. split; reflexivity.
    - destruct (is_not_None lm).
      + rewrite Hr. eexists. split; reflexivity.
      + exists st. split; reflexivity. }
  destruct F as (st1 & -> & _). simpl. rewrite H1, H2.
  unfold is_None in *.
  destruct (is_not_None e1), (is_not_None e2); simpl in *;
    try discriminate Hx; reflexivity.
Qed.

(** C8 as the code has it: [get_psf] raises the [ParamError] whenever the
    dictionary holds the key [los_motion] and both shear keys, exactly one
    of the two shear values is [None], and the statements before the check
    ran through. *)
Theorem get_psf_partial_shear (e : env) (sp : option position) (ha : bool)
  (st : pointing) (lm e1 e2 : pyval) (a1 a2 a3 : option pyval) :
  params st !! "los_motion" = Some lm ->
  (lm = PyNone \/ exists r, as_num lm = Ok r) ->
  params st !! "los_motion_e1" = Some e1 ->
  params st !! "los_motion_e2" = Some e2 ->
  is_None e1 = negb (is_None e2) ->
  gradient_aberration e st None = Ok a1 ->
  random_aberration e st a1 = Ok a2 ->
  oscillating_aberration e st a2 = Ok a3 ->
  get_psf e sp ha st = Raise (ParamError "Must provide both los motion e1 and e2.").
Proof.
  intros Hlm Hnum H1 H2 Hx Ha1 Ha2 Ha3. unfold get_psf.
  rewrite Ha1. simpl. rewrite Ha2. simpl. rewrite Ha3. simpl.
  rewrite (smearing_partial_shear st lm e1 e2 Hlm Hnum H1 H2 Hx). reflexivity.
Qed.

(** The theorem above with [los_motion_e1] given and [los_motion_e2] set
    to [None]. *)
Lemma get_psf_partial_shear_witness :
  get_psf Examples.env0 None false
    (Examples.unbound
       (<["los_motion" := PyNum 0.1]>
        (<["los_motion_e1" := PyNum 0.01]>
         (<["los_motion_e2" := PyNone]> Examples.params0))) 0.009)
  = Raise (ParamError "Must provide both los motion e1 and e2.").
Proof.
  apply (get_psf_partial_shear Examples.env0 None false _
           (PyNum 0.1) (PyNum 0.01) PyNone None None None).
  - reflexivity.
  - right. eexists. reflexivity.
  - reflexivity.
  - reflexivity.
  - reflexivity.
  - reflexivity.
  - reflexivity.
  - reflexivity.
Defined.

(** C8 as stated fails: with [los_motion_e1] given and no key
    [los_motion_e2] at all, a pointing of the one-row schedule bound to
    detector 1 builds its PSF and keeps the unsheared kernel. *)
Lemma one_shear_key_counterexample :
  let prm := <["los_motion" := PyNum 0.1]>
             (<["los_motion_e1" := PyNum 0.01]> Examples.params0) in
  let run :=
    (let! st := init Examples.env0 prm None None (Some 0%Z) None 0.009 (Some 0%Z) in
     update_sca Examples.env0 1 st) in
  prm !! "los_motion_e1" = Some (PyNum 0.01) /\
  prm !! "los_motion_e2" = None /\
  (let! st' := run in Ok (los_motion st'))
  = Ok (Some (Gaussian (2 * sqrt (2 * ln 2) * 0.1)%R)) /\
  (let! st' := run in Ok (aberrations_passed (PSF st')))
  = Ok (Some (PySeq (PyList [1%R]))).
Proof.
  intros prm run. repeat split; vm_compute; reflexivity.
Qed.

(** ** Smearing on a random subset of the pointings *)

Lemma length_filter_map {A B : Type} (f : B -> bool) (g : A -> B) (l : list A) :
  length (List.filter f (List.map g l)) = length (List.filter (fun a => f (g a)) l).
Proof.
  induction l as [| a l IH]; simpl.
  - reflexivity.
  - destruct (f (g a)); simpl; rewrite IH; reflexivity.
Qed.

(** Among 0, ..., n-1 the numbers up to [m] are the first [min n (m+1)]. *)
Lemma count_le_seq (m n : nat) :
  length (List.filter (fun k => k <=? m)%nat (seq 0 n)) = Nat.min n (S m).
Proof.
  induction n as [| n IH].
  - reflexivity.
  - rewrite seq_S, List.filter_app, length_app, IH. simpl.
    destruct (Nat.leb_spec n m); simpl; lia.
Qed.

(** A draw k/N lies above 0.15 exactly when 20 k > 3 N. *)
Lemma draw_above_threshold (k N : nat) :
  (0 < N)%nat ->
  (if Rgt_dec (INR k / INR N) 0.15 then false else true) = (20 * k <=? 3 * N)%nat.
Proof.
  intros HN.
  assert (HNR : (0 < INR N)%R) by (apply lt_0_INR; exact HN).
  assert (E : (INR k / INR N > 0.15)%R <-> (3 * N < 20 * k)%nat).
  { split.
    - intros H. apply INR_lt. rewrite !mult_INR. simpl INR.
      apply (Rmult_gt_compat_r (INR N)) in H; [| exact HNR].
      unfold Rdiv in H. rewrite Rmult_assoc, Rinv_l, Rmult_1_r in H; lra.
    - intros H. apply lt_INR in H. rewrite !mult_INR in H. simpl INR in H.
      apply Rlt_gt. apply (Rmult_lt_reg_r (INR N)); [exact HNR |].
      unfold Rdiv. rewrite Rmult_assoc, Rinv_l, Rmult_1_r; lra. }
  destruct (Rgt_dec (INR k / INR N) 0.15) as [Hgt | Hle];
    destruct (Nat.leb_spec (20 * k) (3 * N)); try reflexivity.
  - apply E in Hgt. lia.
  - exfalso. apply Hle. apply E. lia.
Qed.

(** With the policy enabled and a kernel in place, the kernel survives a
    draw exactly when the draw does not exceed 0.15. *)
Lemma kernel_kept_threshold (e : env) (st : pointing) (d : Z) (k : profile) (u : R) :
  flag (params st) "random_los_motion" = Ok true ->
  dither st = Some d ->
  (0 <= d < 2 ^ 32)%Z ->
  los_motion st = Some k ->
  kernel_kept e st u = if Rgt_dec u 0.15 then false else true.
Proof.
  intros Hf Hd Hr Hk. unfold kernel_kept, random_los_motion. simpl.
  rewrite Hf. simpl. rewrite Hd. unfold seed_rand.
  replace ((0 <=? d)%Z && (d <? 2 ^ 32)%Z) with true
    by (symmetry; apply andb_true_iff; split; [apply Z.leb_le | apply Z.ltb_lt]; lia).
  simpl. destruct (Rgt_dec u 0.15); simpl.
  - reflexivity.
  - rewrite Hk. reflexivity.
Qed.

(** Of [N] equally spaced draws, 3N/20 (rounded down) plus one keep the
    kernel. *)
Lemma kernel_kept_count (e : env) (st : pointing) (d : Z) (k : profile) (N : nat) :
  flag (params st) "random_los_motion" = Ok true ->
  dither st = Some d ->
  (0 <= d < 2 ^ 32)%Z ->
  los_motion st = Some k ->
  (0 < N)%nat ->
  length (List.filter (kernel_kept e st) (draws N)) = (3 * N / 20 + 1)%nat.
Proof.
  intros Hf Hd Hr Hk HN. unfold draws. rewrite length_filter_map.
  rewrite (List.filter_ext_in _ (fun j => (j <=? 3 * N / 20)%nat)).
  - rewrite count_le_seq.
    assert (3 * N / 20 < N)%nat by (apply Nat.Div0.div_lt_upper_bound; lia).
    lia.
  - intros j Hj. rewrite (kernel_kept_threshold e st d k _ Hf Hd Hr Hk).
    rewrite (draw_above_threshold j N HN).
    assert (20 * (3 * N / 20) <= 3 * N)%nat by (apply Nat.Div0.mul_div_le).
    assert (3 * N < 20 * (3 * N / 20) + 20)%nat.
    { pose proof (Nat.div_mod (3 * N) 20 ltac:(lia)) as Hm.
      pose proof (Nat.mod_upper_bound (3 * N) 20 ltac:(lia)). lia. }
    destruct (Nat.leb_spec (20 * j) (3 * N)); destruct (Nat.leb_spec j (3 * N / 20));
      try reflexivity; exfalso; lia.
Qed.

(** C7 as the code has it: with the policy enabled, one value is drawn
    after seeding with the dither index and the kernel is dropped exactly
    when the draw exceeds 0.15; of [N] equally spaced draws, 3N/20 plus
    one keep the kernel, that is 15% of the pointings up to the spacing,
    and the other 85% lose it. *)
Theorem random_los_motion_split (e : env) (st : pointing) (d : Z) (k : profile)
  (N : nat) :
  flag (params st) "random_los_motion" = Ok true ->
  dither st = Some d ->
  (0 <= d < 2 ^ 32)%Z ->
  los_motion st = Some k ->
  (0 < N)%nat ->
  random_los_motion e st
  = Ok (if Rgt_dec (rand_seeded e d) 0.15 then set_los_motion None st else st) /\
  length (List.filter (kernel_kept e st) (draws N)) = (3 * N / 20 + 1)%nat.
Proof.
  intros Hf Hd Hr Hk HN. split.
  - unfold random_los_motion. rewrite Hf. simpl. rewrite Hd. unfold seed_rand.
    replace ((0 <=? d)%Z && (d <? 2 ^ 32)%Z) with true
      by (symmetry; apply andb_true_iff; split; [apply Z.leb_le | apply Z.ltb_lt]; lia).
    simpl. destruct (Rgt_dec (rand_seeded e d) 0.15); reflexivity.
  - exact (kernel_kept_count e st d k N Hf Hd Hr Hk HN).
Qed.

(** The theorem above for dither 0 and twenty draws, four of which keep
    the kernel. *)
Lemma random_los_motion_split_witness :
  let st := set_los_motion (Some (Gaussian 1))
              (set_dither (Some 0%Z)
                 (Examples.unbound
                    (<["random_los_motion" := PyBool true]> Examples.params0) 0.009)) in
  random_los_motion Examples.env0 st
  = Ok (if Rgt_dec (1 / 2) 0.15 then set_los_motion None st else st) /\
  length (List.filter (kernel_kept Examples.env0 st) (draws 20)) = 4%nat.
Proof.
  intros st.
  apply (random_los_motion_split Examples.env0 st 0 (Gaussian 1) 20).
  - reflexivity.
  - reflexivity.
  - split; [lia | reflexivity].
  - reflexivity.
  - lia.
Defined.

(** C7 as stated fails: of one hundred equally spaced draws, sixteen keep
    the smearing kernel, not eighty-five. *)
Lemma smearing_kept_share_counterexample :
  let st := set_los_motion (Some (Gaussian 1))
              (set_dither (Some 0%Z)
                 (Examples.unbound
                    (<["random_los_motion" := PyBool true]> Examples.params0) 0.009)) in
  length (List.filter (kernel_kept Examples.env0 st) (draws 100)) = 16%nat /\
  16%nat <> 85%nat.
Proof.
  intros st. split.
  - apply (kernel_kept_count Examples.env0 st 0 (Gaussian 1) 100).
    + reflexivity.
    + reflexivity.
    + split; [lia | reflexivity].
    + reflexivity.
    + lia.
  - lia.
Qed.

(** ** [near_pointing]: the radius of the search *)

Lemma where_from_In (mask : list bool) (k i : nat) :
  In i (where_from k mask) <->
  exists j, i = (k + j)%nat /\ nth_error mask j = Some true.
Proof.
  revert k. induction mask as [| b mask IH]; intros k; simpl.
  - split; [intros [] | intros (j & _ & H); destruct j; discriminate H].
  - assert (T : In i (where_from (S k) mask) <->
                exists j, i = (k + S j)%nat /\ nth_error mask j = Some true).
    { rewrite IH. split; intros (j & -> & H); exists j; split; trivial; lia. }
    destruct b; simpl; rewrite T; split.
    + intros [<- | (j & -> & H)].
      * exists 0%nat. split; [lia | reflexivity].
      * exists (S j). split; [reflexivity | exact H].
    + intros ([| j] & -> & H).
      * left. lia.
      * right. exists j. split; [reflexivity | exact H].
    + intros (j & -> & H). exists (S j). split; [reflexivity | exact H].
    + intros ([| j] & -> & H); [discriminate H |].
      exists j. split; [reflexivity | exact H].
Qed.










(** What [__init__] with a dither and no filter leaves behind. *)
Lemma init_with_dither (e : env) (prm : gmap string pyval) (d : Z) (r : R)
  (rk : option Z) (st : pointing) :
  init e prm None None (Some d) None r rk = Ok st ->
  exists row, fits_row e d = Ok row /\
              pose st = Some (mk_pose row) /\
              sbore2 st = Some (sin (r / 2)).
Proof.
  unfold init. intros H.
  inv_bind H as v1 H1. inv_bind H as v2 H2. inv_bind H as v3 H3. inv_bind H as v4 H4.
  simpl in H. inv_bind H as st1 Hs. inv_bind H as ce Hce. injection H as <-.
  unfold update_dither in Hs. inv_bind Hs as row Hrow. simpl in Hs.
  destruct (filter_dither_dict_ e !! d_filter row) as [name |]; [| discriminate Hs].
  apply get_bpass_ok in Hs. destruct Hs as (b & _ & ->).
  exists row. repeat split. exact Hrow.
Qed.






(** ** [setup]: when a pointing is skipped *)

(** C4 as the code has it: a [setup] that returns normally asks for the
    pointing to be skipped exactly when it was not called in set-up mode
    and the galaxy candidate set is empty; the star and supernova
    candidate sets are not consulted. *)
Theorem setup_skips_on_galaxies (e : Sim.env) (filter_ : string) (d s : Z)
  (flag : bool) (sim sim' : Sim.sim) (skip : bool) :
  Sim.setup e filter_ d s flag sim = Ok (sim', skip) ->
  exists c,
    Sim.cats sim' = Some c /\
    (skip = true <-> flag = false /\ Sim.gal_ind c = []).
Proof.
  unfold Sim.setup. intros H.
  inv_bind H as u Hu. inv_bind H as p0 Hp0. inv_bind H as p Hp. inv_bind H as v Hv.
  exists (Sim.init_catalogs e p flag). destruct flag.
  - injection H as <- <-. split; [reflexivity |].
    split; [discriminate | intros [Hf _]; discriminate Hf].
  - destruct (Sim.gal_ind (Sim.init_catalogs e p false)) as [| g gs] eqn:Hg;
      simpl in H; injection H as <- <-; simpl.
    + split; [reflexivity |]. split; [intros _; split; reflexivity | reflexivity].
    + split; [reflexivity |]. split; [discriminate | intros [_ Hn]; discriminate Hn].
Qed.

(** The theorem above for a catalogue without galaxies. *)
Lemma setup_skips_on_galaxies_witness :
  exists sim' c,
    Sim.setup (Examples.sim_env
                 {| Sim.gal_ind := []; Sim.star_ind := []; Sim.supernova_ind := [] |})
      "H158" 0 1 false Examples.sim0 = Ok (sim', true) /\
    Sim.cats sim' = Some c /\
    (true = true <-> false = false /\ Sim.gal_ind c = []).
Proof.
  assert (H : exists sim',
            Sim.setup (Examples.sim_env
                 {| Sim.gal_ind := []; Sim.star_ind := []; Sim.supernova_ind := [] |})
              "H158" 0 1 false Examples.sim0 = Ok (sim', true))
    by (eexists; vm_compute; reflexivity).
  destruct H as (sim' & H).
  destruct (setup_skips_on_galaxies _ _ _ _ _ _ _ _ H) as (c & Hc & Hiff).
  exists sim', c. split; [exact H | split; [exact Hc | exact Hiff]].
Defined.

(** C4 as stated fails: with no galaxy candidate but one star candidate
    and one supernova candidate, [setup] returns [True] and the pointing is
    skipped. *)
Lemma stars_only_skipped_counterexample :
  (let! r := Sim.setup
               (Examples.sim_env
                  {| Sim.gal_ind := []; Sim.star_ind := [7%Z];
                     Sim.supernova_ind := [9%Z] |})
               "H158" 0 1 false Examples.sim0 in
   Ok (snd r,
       option_map Sim.star_ind (Sim.cats (fst r)),
       option_map Sim.supernova_ind (Sim.cats (fst r))))
  = Ok (true, Some [7%Z], Some [9%Z]).
Proof. vm_compute. reflexivity. Qed.

(** ** [iterate_image]: the truth tables *)

(** The mask [table['ind']>-999] leaves no row with the sentinel. *)
Lemma realized_no_sentinel (t : list Sim.row) :
  List.Forall (fun r => Sim.ind r <> Sim.sentinel) (Sim.realized t).
Proof.
  apply List.Forall_forall. intros r Hr. unfold Sim.realized in Hr.
  apply List.filter_In in Hr. destruct Hr as [_ Hr].
  apply Z.ltb_lt in Hr. lia.
Qed.

Lemma write_truth_realized (l : Sim.locals) (t ts tn : list Sim.row) :
  Sim.write_truth l = Ok (t, ts, tn) ->
  exists t0 ts0 tn0,
    Sim.index_table l = Some t0 /\ Sim.index_table_star l = Some ts0 /\
    Sim.index_table_sn l = Some tn0 /\
    t = Sim.realized t0 /\ ts = Sim.realized ts0 /\ tn = Sim.realized tn0.
Proof.
  unfold Sim.write_truth. intros H.
  destruct (Sim.index_table l) as [t0 |]; [| discriminate H].
  destruct (Sim.index_table_star l) as [ts0 |]; [| discriminate H].
  destruct (Sim.index_table_sn l) as [tn0 |]; [| discriminate H].
  simpl in H. injection H as <- <- <-.
  exists t0, ts0, tn0. repeat split.
Qed.

(** C3: when [iterate_image] returns on rank 0 with the truth tables
    written, none of the three tables has a row whose [ind] is -999. *)
Theorem truth_tables_without_sentinel (e : Sim.env) (s : Sim.sim) (w0 : Sim.worker)
  (others : list Sim.worker) (out : Sim.written) :
  Sim.iterate_image e s w0 others = Ok (Some out) ->
  List.Forall (fun r => Sim.ind r <> (-999)%Z) (Sim.truth out) /\
  List.Forall (fun r => Sim.ind r <> (-999)%Z) (Sim.truth_star out) /\
  List.Forall (fun r => Sim.ind r <> (-999)%Z) (Sim.truth_sn out).
Proof.
  unfold Sim.iterate_image. intros H.
  inv_bind H as p Hp. inv_bind H as l Hl. inv_bind H as r Hr.
  destruct r as [[acc img] |]; [| discriminate H].
  inv_bind H as t Ht. injection H as <-. simpl.
  destruct t as [[t ts] tn]. apply write_truth_realized in Ht.
  destruct Ht as (t0 & ts0 & tn0 & _ & _ & _ & -> & -> & ->). simpl.
  repeat split; apply realized_no_sentinel.
Qed.

(** The theorem above on a run of two ranks: of the two galaxy rows
    allocated on rank 0 one stays at the sentinel and is not written. *)
Lemma truth_tables_without_sentinel_witness :
  exists out,
    Sim.iterate_image (Examples.sim_env
                         {| Sim.gal_ind := [41%Z]; Sim.star_ind := [42%Z];
                            Sim.supernova_ind := [43%Z] |})
      Examples.sim1 (Examples.worker1 2) [Examples.worker1 2] = Ok (Some out) /\
    List.map Sim.ind (Sim.truth out) = [41%Z] /\
    List.Forall (fun r => Sim.ind r <> (-999)%Z) (Sim.truth out) /\
    List.Forall (fun r => Sim.ind r <> (-999)%Z) (Sim.truth_star out) /\
    List.Forall (fun r => Sim.ind r <> (-999)%Z) (Sim.truth_sn out).
Proof.
  assert (H : exists out,
            Sim.iterate_image (Examples.sim_env
                         {| Sim.gal_ind := [41%Z]; Sim.star_ind := [42%Z];
                            Sim.supernova_ind := [43%Z] |})
              Examples.sim1 (Examples.worker1 2) [Examples.worker1 2] = Ok (Some out) /\
            List.map Sim.ind (Sim.truth out) = [41%Z])
    by (eexists; split; vm_compute; reflexivity).
  destruct H as (out & H & Hind).
  exists out. split; [exact H |]. split; [exact Hind |].
  exact (truth_tables_without_sentinel _ _ _ _ _ H).
Defined.

(** ** [iterate_image]: the reduction of the detector image *)








(** When rank 0 itself leaves through the early [return], nothing is
    summed or written, whatever the other ranks hold. *)
Example reduce_image_idle_coordinator :
  Sim.reduce_image (Examples.sim_env
                      {| Sim.gal_ind := [41%Z]; Sim.star_ind := [42%Z];
                         Sim.supernova_ind := [43%Z] |})
    Examples.sim1
    (set_sca (Some 3%Z)
       (set_filter (Some "H158")
          (set_dither (Some 5%Z) (Examples.unbound Examples.params0 0.009))))
    (Examples.idle 2) [Examples.worker1 2]
  = Ok None.
Proof. vm_compute. reflexivity. Qed.

(** * Further properties of [telescope.py] *)

(** ** [__init__] *)

(** [__init__] never returns when an SCA is passed: it calls
    [update_sca] with the keyword [sca_pos], which the method does not
    take. *)
Theorem init_with_sca_fails (e : env) (prm : gmap string pyval)
  (filter_ : option string) (s : Z) (d : option Z) (sp : option position)
  (r : R) (rk : option Z) :
  exists err, init e prm filter_ (Some s) d sp r rk = Raise err.
Proof.
  unfold init.
  destruct (getitem prm "dither_file"); [eexists; reflexivity |].
  destruct (getitem prm "n_waves"); [eexists; reflexivity |].
  destruct (getitem prm "approximate_struts"); [eexists; reflexivity |].
  destruct (getitem prm "extra_aberrations"); [eexists; reflexivity |].
  simpl. destruct filter_ as [f |]; simpl.
  - destruct (get_bpass e f _); eexists; reflexivity.
  - eexists; reflexivity.
Qed.

(** ** [get_psf]: the attributes it writes *)

Lemma store_psf_shape (sp : option position) (ha : bool) (st st' : pointing)
  (ea : option pyval) :
  store_psf sp ha st ea = Ok st' ->
  exists p a, st' = set_extra_aberrations a (set_PSF p st).
Proof.
  unfold store_psf. intros H. inv_bind H as g Hg. inv_bind H as on Hon.
  destruct on.
  - injection H as <-. eexists. eexists. reflexivity.
  - destruct (params st !! "gauss_psf") as [v |].
    + destruct (is_not_None v).
      * inv_bind H as r Hr. injection H as <-.
        exists (Some (GaussianPSF r)), (extra_aberrations st). destruct st; reflexivity.
      * injection H as <-. exists (PSF st), (extra_aberrations st).
        destruct st; reflexivity.
    + inv_bind H as b Hb. injection H as <-.
      destruct st. eexists. eexists. unfold set_extra_aberrations, set_PSF. simpl.
      reflexivity.
Qed.

Lemma random_aberration_gradient_shape (e : env) (st : pointing) (ea : option pyval)
  (r : pointing * option pyval) :
  random_aberration_gradient e st ea = Ok r ->
  (is_Some (params st !! "random_aberration_gradient") /\ fst r = st) \/
  (params st !! "random_aberration_gradient" = None /\
   fst r = set_params (<["random_aberration_gradient" := PyBool false]> (params st)) st).
Proof.
  unfold random_aberration_gradient. intros H.
  destruct (params st !! "random_aberration_gradient") as [g |] eqn:Hg.
  - left. split; [eexists; reflexivity |].
    inv_bind H as on Hon. destruct on.
    + inv_bind H as u Hu. inv_bind H as a Ha. injection H as <-. reflexivity.
    + injection H as <-. reflexivity.
  - right. injection H as <-. split; reflexivity.
Qed.

(** The state after [get_psf] differs from the state before in four
    attributes at most. *)
Lemma get_psf_shape (e : env) (sp : option position) (ha : bool) (st st' : pointing) :
  get_psf e sp ha st = Ok st' ->
  exists prm k p a,
    st' = set_extra_aberrations a (set_PSF p (set_params prm (set_los_motion k st))) /\
    ((is_Some (params st !! "random_aberration_gradient") /\ prm = params st) \/
     (params st !! "random_aberration_gradient" = None /\
      prm = <["random_aberration_gradient" := PyBool false]> (params st))).
Proof.
  unfold get_psf. intros H.
  inv_bind H as a1 H1. inv_bind H as a2 H2. inv_bind H as a3 H3.
  inv_bind H as st1 Hs1. inv_bind H as st2 Hs2. inv_bind H as r Hr.
  apply smearing_frame in Hs1. destruct Hs1 as (k1 & ->).
  apply random_los_motion_frame in Hs2. destruct Hs2 as (k2 & ->).
  apply store_psf_shape in H. destruct H as (p & a & ->).
  apply random_aberration_gradient_shape in Hr.
  destruct Hr as [[Hsome ->] | [Hnone ->]].
  - exists (params st), k2, p, a.
    split; [destruct st; reflexivity | left; split; [exact Hsome | reflexivity]].
  - eexists. exists k2, p, a. split; [destruct st; reflexivity |].
    right. split; [exact Hnone | reflexivity].
Qed.

(** [get_psf] leaves the binding of the pointing alone: detector, dither,
    filter, bandpass, pose, WCS and the cache of the SCA centre are as
    before. Of the shared parameter dictionary it changes one entry at
    most: a missing key [random_aberration_gradient] is added with the
    value [False]; a dictionary that has the key is not changed. *)
Theorem get_psf_keeps_binding (e : env) (sp : option position) (ha : bool)
  (st st' : pointing) :
  get_psf e sp ha st = Ok st' ->
  (sca st' = sca st /\ dither st' = dither st /\ filter st' = filter st /\
   bpass st' = bpass st /\ pose st' = pose st /\ WCS st' = WCS st /\
   sca_pose st' = sca_pose st) /\
  (forall k, k <> "random_aberration_gradient" -> params st' !! k = params st !! k) /\
  (params st !! "random_aberration_gradient" = None ->
   params st' !! "random_aberration_gradient" = Some (PyBool false)) /\
  (is_Some (params st !! "random_aberration_gradient") -> params st' = params st).
Proof.
  intros H. apply get_psf_shape in H. destruct H as (prm & k & p & a & -> & Hprm).
  simpl. split; [repeat split |].
  destruct Hprm as [[[g Hg] ->] | [Hnone ->]].
  - split; [reflexivity |]. split; [| reflexivity].
    intros Hn. rewrite Hn in Hg. discriminate Hg.
  - split; [| split].
    + intros key Hkey. rewrite lookup_insert_ne; [reflexivity | congruence].
    + intros _. apply lookup_insert_eq.
    + intros [g Hg]. rewrite Hnone in Hg. discriminate Hg.
Qed.

(** The theorem above on a dictionary without the key. *)
Lemma get_psf_keeps_binding_witness :
  exists st',
    get_psf Examples.env0 None false (Examples.bound Examples.params0) = Ok st' /\
    sca st' = Some 1%Z /\
    params st' !! "random_aberration_gradient" = Some (PyBool false) /\
    params st' !! "chip_enlarge" = Some (PyNum 0.01).
Proof.
  assert (H : exists st',
            get_psf Examples.env0 None false (Examples.bound Examples.params0) = Ok st')
    by (eexists; vm_compute; reflexivity).
  destruct H as (st' & H).
  destruct (get_psf_keeps_binding _ _ _ _ _ H) as ((Hsca & _) & Hk & Hnone & _).
  exists st'. split; [exact H |]. split; [exact Hsca |]. split.
  - apply Hnone. reflexivity.
  - rewrite Hk; [reflexivity | discriminate].
Defined.

Lemma set_los_motion_twice (k1 k2 : option profile) (st : pointing) :
  set_los_motion k2 (set_los_motion k1 st) = set_los_motion k2 st.
Proof. destruct st; reflexivity. Qed.

(** [get_psf] seen from its last group of statements. *)
Lemma get_psf_inv (e : env) (sp : option position) (ha : bool) (st st' : pointing)
  (chip : bool) :
  chip_flag st = Ok chip ->
  get_psf e sp ha st = Ok st' ->
  exists k prm g ea,
    store_psf sp ha (set_params prm (set_los_motion k st)) ea = Ok st' /\
    getitem prm "random_aberration_gradient" = Ok g /\
    truthy g = Ok chip /\
    prm !! "gauss_psf" = params st !! "gauss_psf" /\
    (if chip
     then exists v, mode_aberrations e st ChipGradient = Ok v /\ ea = Some v
     else True).
Proof.
  intros Hchip H. unfold get_psf in H.
  inv_bind H as a1 H1. inv_bind H as a2 H2. inv_bind H as a3 H3.
  inv_bind H as st1 Hs1. inv_bind H as st2 Hs2. inv_bind H as r Hr.
  apply smearing_frame in Hs1. destruct Hs1 as (k1 & ->).
  apply random_los_motion_frame in Hs2. destruct Hs2 as (k2 & ->).
  rewrite set_los_motion_twice in *.
  assert (Hchip2 : chip_flag (set_los_motion k2 st) = Ok chip) by exact Hchip.
  apply (chip_step _ _ _ _ chip Hchip2) in Hr.
  destruct Hr as ((prm & g & Hfst & Hg & Ht & Hgp) & Hsnd).
  rewrite Hfst in H. exists k2, prm, g, (snd r).
  split; [exact H |]. split; [exact Hg |]. split; [exact Ht |]. split; [exact Hgp |].
  destruct chip; [exact Hsnd | exact I].
Qed.

(** ** [get_psf] under the chip-gradient mode is not idempotent *)

(** One call of [get_psf] under the chip-gradient mode: the stored
    aberrations are replaced by their multiple, no PSF is stored, and the
    mode is still on afterwards. *)
Lemma get_psf_chip (e : env) (sp : option position) (ha : bool) (st st' : pointing) :
  chip_flag st = Ok true ->
  get_psf e sp ha st = Ok st' ->
  exists u a,
    seed_rand e (sca st) = Ok u /\
    aberration_array st = Ok a /\
    extra_aberrations st'
    = PySeq (NdArray (List.map (fun x => x * u * sqrt 3 / (IZR (n_pix e) / 2))%R a)) /\
    PSF st' = None /\ sca st' = sca st /\ chip_flag st' = Ok true.
Proof.
  intros Hchip H.
  destruct (get_psf_inv e sp ha st st' true Hchip H)
    as (k & prm & g & ea & Hst & Hg & Ht & _ & (v & Hv & ->)).
  unfold store_psf in Hst. simpl in Hst. rewrite Hg in Hst. simpl in Hst.
  rewrite Ht in Hst. simpl in Hst. injection Hst as <-.
  simpl in Hv. inv_bind Hv as u Hu. inv_bind Hv as a Ha. injection Hv as <-.
  exists u, a. simpl. repeat split; try assumption.
  unfold chip_flag, flag. simpl. unfold getitem in Hg.
  destruct (prm !! "random_aberration_gradient") as [g' |]; [| discriminate Hg].
  injection Hg as ->. exact Ht.
Qed.

(** Under the chip-gradient mode, on a pointing bound to a detector,
    every call of [get_psf] multiplies the stored aberrations once more by
    the same factor, the first draw of the generator seeded with the
    detector number: after two calls (for instance two bindings of the
    same detector) they carry the factor twice. *)
Theorem get_psf_chip_gradient_compounds (e : env) (sp sp' : option position)
  (ha ha' : bool) (s : Z) (st st1 st2 : pointing) :
  sca st = Some s ->
  chip_flag st = Ok true ->
  get_psf e sp ha st = Ok st1 ->
  get_psf e sp' ha' st1 = Ok st2 ->
  exists u a,
    seed_rand e (Some s) = Ok u /\
    aberration_array st = Ok a /\
    let f := (fun x => x * u * sqrt 3 / (IZR (n_pix e) / 2))%R in
    extra_aberrations st1 = PySeq (NdArray (List.map f a)) /\
    extra_aberrations st2 = PySeq (NdArray (List.map f (List.map f a))).
Proof.
  intros Hs Hchip H1 H2.
  destruct (get_psf_chip e sp ha st st1 Hchip H1)
    as (u & a & Hu & Ha & He1 & _ & Hsca & Hchip1).
  destruct (get_psf_chip e sp' ha' st1 st2 Hchip1 H2)
    as (u' & a' & Hu' & Ha' & He2 & _).
  rewrite Hsca, Hu in Hu'. injection Hu' as <-.
  unfold aberration_array in Ha'. rewrite He1 in Ha'. injection Ha' as <-.
  rewrite Hs in Hu.
  exists u, a. repeat split; assumption.
Qed.

(** The theorem above on detector 1 with the aberration vector [1]. *)
Lemma get_psf_chip_gradient_compounds_witness :
  let prm := <["random_aberration_gradient" := PyBool true]> Examples.params0 in
  exists st1 st2 u,
    get_psf Examples.env0 None false (Examples.bound prm) = Ok st1 /\
    get_psf Examples.env0 None false st1 = Ok st2 /\
    u = (1 / 2)%R /\
    extra_aberrations st2
    = PySeq (NdArray [(1 * u * sqrt 3 / (IZR 4088 / 2)
                       * u * sqrt 3 / (IZR 4088 / 2))%R]).
Proof.
  intros prm.
  assert (H1 : exists st1, get_psf Examples.env0 None false (Examples.bound prm) = Ok st1)
    by (eexists; vm_compute; reflexivity).
  destruct H1 as (st1 & H1).
  assert (H2 : exists st2, get_psf Examples.env0 None false st1 = Ok st2).
  { destruct (get_psf Examples.env0 None false st1) eqn:E; [| eexists; reflexivity].
    exfalso. revert E. vm_compute in H1. injection H1 as <-. vm_compute. discriminate. }
  destruct H2 as (st2 & H2).
  destruct (get_psf_chip_gradient_compounds Examples.env0 None None false false
              1%Z (Examples.bound prm) st1 st2 eq_refl eq_refl H1 H2)
    as (u & a & Hu & Ha & _ & He2).
  injection Hu as <-. injection Ha as <-.
  exists st1, st2, (1 / 2)%R. repeat split; assumption.
Defined.

(** ** [get_psf] outside the chip-gradient mode *)

(** What [get_psf] stores when the chip-gradient mode is off. The stored
    aberrations are never touched. With the key [gauss_psf] in the
    dictionary the aberration flags have no effect on the PSF: a value
    other than [None] gives the Gaussian of that half-light radius, and
    the value [None] leaves [self.PSF] as it was, so that no PSF is built. *)
Theorem get_psf_gauss (e : env) (sp : option position) (ha : bool)
  (st st' : pointing) (v : pyval) :
  chip_flag st = Ok false ->
  params st !! "gauss_psf" = Some v ->
  get_psf e sp ha st = Ok st' ->
  extra_aberrations st' = extra_aberrations st /\
  (v = PyNone -> PSF st' = PSF st) /\
  (v <> PyNone -> exists r, as_num v = Ok r /\ PSF st' = Some (GaussianPSF r)).
Proof.
  intros Hchip Hgauss H.
  destruct (get_psf_inv e sp ha st st' false Hchip H)
    as (k & prm & g & ea & Hst & Hg & Ht & Hgp & _).
  unfold store_psf in Hst. simpl in Hst. rewrite Hg in Hst. simpl in Hst.
  rewrite Ht in Hst. simpl in Hst. rewrite Hgp, Hgauss in Hst.
  destruct v; simpl in Hst; try discriminate Hst.
  - injection Hst as <-. repeat split.
    intros Hn. contradiction Hn. reflexivity.
  - injection Hst as <-. repeat split; [intros Hn; discriminate Hn |].
    intros _. eexists. split; reflexivity.
  - injection Hst as <-. repeat split; [intros Hn; discriminate Hn |].
    intros _. eexists. split; reflexivity.
  - injection Hst as <-. repeat split; [intros Hn; discriminate Hn |].
    intros _. eexists. split; reflexivity.
Qed.

(** The theorem above for [gauss_psf: None] next to an enabled
    per-detector-random mode: no PSF is stored. *)
Lemma get_psf_gauss_witness :
  let prm := <["gauss_psf" := PyNone]>
             (<["random_aberration" := PyBool true]> Examples.params0) in
  exists st',
    get_psf Examples.env0 None false (Examples.bound prm) = Ok st' /\
    PSF st' = None /\
    extra_aberrations st' = PySeq (PyList [1%R]).
Proof.
  intros prm.
  assert (H : exists st', get_psf Examples.env0 None false (Examples.bound prm) = Ok st')
    by (eexists; vm_compute; reflexivity).
  destruct H as (st' & H).
  destruct (get_psf_gauss Examples.env0 None false (Examples.bound prm) st' PyNone
              eq_refl eq_refl H) as (Hea & Hnone & _).
  exists st'. split; [exact H |]. split.
  - rewrite (Hnone eq_refl). reflexivity.
  - rewrite Hea. reflexivity.
Defined.

(** ** [load_psf] after [get_psf] *)

(** After a successful [get_psf] with the chip-gradient mode off,
    [load_psf] for a galaxy hands out the stored PSF at every position:
    the key it reads is in the dictionary even if the parameter file did
    not have it. *)
Theorem load_psf_after_get_psf (e : env) (sp sp' : option position) (ha ha' : bool)
  (st st' : pointing) (pos : position) :
  chip_flag st = Ok false ->
  get_psf e sp ha st = Ok st' ->
  load_psf e pos false sp' ha' st' = Ok (PSF st').
Proof.
  intros Hchip H.
  destruct (get_psf_inv e sp ha st st' false Hchip H)
    as (k & prm & g & ea & Hst & Hg & Ht & _ & _).
  apply store_psf_shape in Hst. destruct Hst as (p & a & ->).
  unfold load_psf. simpl. rewrite Hg. simpl. rewrite Ht. reflexivity.
Qed.

(** The theorem above on a parameter file without the key. *)
Lemma load_psf_after_get_psf_witness :
  exists st',
    get_psf Examples.env0 None false (Examples.bound Examples.params0) = Ok st' /\
    load_psf Examples.env0 {| pos_x := 7; pos_y := 9 |} false None false st'
    = Ok (PSF st') /\
    load_psf Examples.env0 {| pos_x := 7; pos_y := 9 |} false None false
      (Examples.bound Examples.params0)
    = Raise (KeyError "random_aberration_gradient").
Proof.
  assert (H : exists st',
            get_psf Examples.env0 None false (Examples.bound Examples.params0) = Ok st')
    by (eexists; vm_compute; reflexivity).
  destruct H as (st' & H).
  exists st'. split; [exact H |]. split.
  - exact (load_psf_after_get_psf Examples.env0 None None false false
             (Examples.bound Examples.params0) st'
             {| pos_x := 7; pos_y := 9 |} eq_refl H).
  - reflexivity.
Defined.

(** ** [update_sca]: what a successful binding leaves *)

(** After a successful [update_sca(s)] the pointing is bound to [s], its
    WCS is the one requested for the pose of the bound dither and for [s],
    and the cached centre of the SCA is the sky position of the central
    pixel under that WCS; dither, pose and filter are as before. *)
Theorem update_sca_binds (e : env) (s : Z) (st st' : pointing) :
  update_sca e s st = Ok st' ->
  exists c w,
    pose st = Some c /\
    w = {| world_ra := ra c; world_dec := dec c; PA := pa c;
           wcs_date := date c; SCAs := s |} /\
    sca st' = Some s /\ WCS st' = Some w /\
    sca_pose st'
    = (let radec := toWorld e w {| pos_x := (n_pix e / 2)%Z;
                                   pos_y := (n_pix e / 2)%Z |} in
       Some {| sca_sdec := sin (snd radec); sca_cdec := cos (snd radec);
               sca_sra := sin (fst radec); sca_cra := cos (fst radec) |}) /\
    dither st' = dither st /\ pose st' = pose st /\ filter st' = filter st.
Proof.
  unfold update_sca. intros H.
  inv_bind H as st1 Hw. inv_bind H as st2 Hp. inv_bind H as w Hwcs.
  injection H as <-.
  unfold get_wcs in Hw. simpl in Hw.
  destruct (pose st) as [c |] eqn:Hpose; [| discriminate Hw].
  simpl in Hw. injection Hw as <-.
  apply get_psf_shape in Hp. destruct Hp as (prm & k & p & a & -> & _).
  simpl in Hwcs. injection Hwcs as <-.
  exists c. eexists. split; [reflexivity |]. split; [reflexivity |].
  simpl. repeat split. exact Hpose.
Qed.

(** The theorem above for detector 1 after dither 0. *)
Lemma update_sca_binds_witness :
  exists st',
    update_sca Examples.env0 1 (Examples.bound Examples.params0) = Ok st' /\
    sca st' = Some 1%Z /\ dither st' = Some 0%Z.
Proof.
  assert (H : exists st',
            update_sca Examples.env0 1 (Examples.bound Examples.params0) = Ok st')
    by (eexists; vm_compute; reflexivity).
  destruct H as (st' & H).
  destruct (update_sca_binds _ _ _ _ H) as (c & w & _ & _ & Hs & _ & _ & Hd & _).
  exists st'. split; [exact H |]. split; [exact Hs |]. rewrite Hd. reflexivity.
Defined.

(** ** Attributes that the class reads but never assigns *)

Import Lifecycle.

Lemma update_dither_shape (e : env) (d : Z) (st st' : pointing) :
  update_dither e d st = Ok st' ->
  exists row f b,
    st' = set_bpass b (set_filter f (set_pose (Some (mk_pose row))
                                       (set_dither (Some d) st))).
Proof.
  unfold update_dither. intros H. inv_bind H as row Hrow. simpl in H.
  destruct (filter st) as [f0 |] eqn:Hf.
  - injection H as <-. exists row, (Some f0), (bpass st).
    destruct st; simpl in *; subst; reflexivity.
  - destruct (filter_dither_dict_ e !! d_filter row); [| discriminate H].
    apply get_bpass_ok in H. destruct H as (b & _ & ->).
    eexists. eexists. eexists. reflexivity.
Qed.

Lemma update_sca_shape (e : env) (s : Z) (st st' : pointing) :
  update_sca e s st = Ok st' ->
  exists w prm k p a c,
    st' = set_sca_pose c
            (set_extra_aberrations a
               (set_PSF p (set_params prm (set_los_motion k
                  (set_WCS w (set_sca (Some s) st)))))).
Proof.
  unfold update_sca. intros H.
  inv_bind H as st1 Hw. inv_bind H as st2 Hp. inv_bind H as w Hwcs.
  injection H as <-.
  unfold get_wcs in Hw.
  inv_bind Hw as x1 E1. inv_bind Hw as x2 E2. inv_bind Hw as x3 E3.
  inv_bind Hw as x4 E4. simpl in Hw. injection Hw as <-.
  apply get_psf_shape in Hp. destruct Hp as (prm & k & p & a & -> & _).
  eexists. eexists. eexists. eexists. eexists. eexists. reflexivity.
Qed.

(** No method of the class creates [self.mjd] or [self.PSF_high]. *)
Lemma reachable_never_assigned (e : env) (st : pointing) :
  reachable e st -> mjd st = None /\ PSF_high st = None.
Proof.
  induction 1 as [prm f s d sp r rk st H
                 | st f st' _ IH H
                 | st d st' _ IH H
                 | st s st' _ IH H
                 | st st' _ IH H
                 | st sp ha st' _ IH H].
  - unfold init in H.
    inv_bind H as v1 H1. inv_bind H as v2 H2. inv_bind H as v3 H3.
    inv_bind H as v4 H4. inv_bind H as st1 Hs1. inv_bind H as st2 Hs2.
    inv_bind H as st3 Hs3. inv_bind H as ce Hce. injection H as <-. simpl.
    assert (F1 : mjd st1 = None /\ PSF_high st1 = None).
    { destruct f as [f |].
      - apply get_bpass_ok in Hs1. destruct Hs1 as (b & _ & ->). split; reflexivity.
      - injection Hs1 as <-. split; reflexivity. }
    destruct s as [s |]; [discriminate Hs2 | injection Hs2 as <-].
    destruct d as [d |].
    + apply update_dither_shape in Hs3. destruct Hs3 as (row & f' & b & ->). exact F1.
    + injection Hs3 as <-. exact F1.
  - apply get_bpass_ok in H. destruct H as (b & _ & ->). exact IH.
  - apply update_dither_shape in H. destruct H as (row & f' & b & ->). exact IH.
  - apply update_sca_shape in H. destruct H as (w & prm & k & p & a & c & ->). exact IH.
  - unfold get_wcs in H.
    inv_bind H as x1 E1. inv_bind H as x2 E2. inv_bind H as x3 E3.
    inv_bind H as x4 E4. destruct (sca st); [| discriminate H].
    injection H as <-. exact IH.
  - apply get_psf_shape in H. destruct H as (prm & k & p & a & -> & _). exact IH.
Qed.

(** On a pointing made by the class alone, [near_pointing] with a date
    range never returns: the test reads [self.mjd], which no method
    assigns. *)
Theorem near_pointing_dates_fail (e : env) (st : pointing) (pts : list (R * R))
  (min_date : R) (max_date : option R) (sca : bool) :
  reachable e st ->
  exists err, near_pointing pts (Some min_date) max_date sca st = Raise err.
Proof.
  intros Hr. apply reachable_never_assigned in Hr. destruct Hr as [Hmjd _].
  unfold near_pointing.
  destruct sca.
  - destruct (sca_pose st); simpl; [| eexists; reflexivity].
    destruct (sbore2 st); simpl; [| eexists; reflexivity].
    rewrite Hmjd. eexists; reflexivity.
  - destruct (pose st); simpl; [| eexists; reflexivity].
    destruct (sbore2 st); simpl; [| eexists; reflexivity].
    rewrite Hmjd. eexists; reflexivity.
Qed.

(** The theorem above on a pointing built for dither 0: the error is the
    missing attribute. *)
Lemma near_pointing_dates_fail_witness :
  exists st,
    init Examples.env0 Examples.params0 None None (Some 0%Z) None 0.009 (Some 0%Z)
    = Ok st /\
    near_pointing [(0%R, 0%R)] (Some 59000%R) (Some 59001%R) false st
    = Raise (AttributeError "mjd").
Proof.
  assert (H : exists st,
            init Examples.env0 Examples.params0 None None (Some 0%Z) None 0.009
              (Some 0%Z) = Ok st)
    by (eexists; vm_compute; reflexivity).
  destruct H as (st & H). exists st. split; [exact H |].
  pose proof (reach_init _ _ _ _ _ _ _ _ _ H) as Hreach.
  destruct (near_pointing_dates_fail Examples.env0 st [(0%R, 0%R)] 59000%R
              (Some 59001%R) false Hreach) as (err & Herr).
  rewrite Herr. f_equal.
  destruct (reachable_never_assigned _ _ Hreach) as [Hmjd _].
  apply init_with_dither in H. destruct H as (row & _ & Hpose & Hsb).
  unfold near_pointing in Herr. rewrite Hpose in Herr. simpl in Herr.
  rewrite Hsb in Herr. simpl in Herr. rewrite Hmjd in Herr.
  injection Herr as <-. reflexivity.
Defined.

(** On a pointing made by the class alone, [load_psf] for a star returns
    only under the chip-gradient mode: otherwise it reads [self.PSF_high],
    which no method assigns. *)
Theorem load_psf_star_needs_chip_gradient (e : env) (st : pointing) (pos : position)
  (sp : option position) (ha : bool) (r : option psf) :
  reachable e st ->
  load_psf e pos true sp ha st = Ok r ->
  chip_flag st = Ok true.
Proof.
  intros Hr H. apply reachable_never_assigned in Hr. destruct Hr as [_ Hhigh].
  unfold load_psf in H. inv_bind H as g Hg. inv_bind H as on Hon.
  unfold chip_flag, flag. unfold getitem in Hg.
  destruct (params st !! "random_aberration_gradient") as [g' |]; [| discriminate Hg].
  injection Hg as ->. destruct on; [exact Hon |].
  rewrite Hhigh in H. discriminate H.
Qed.

(** Under the chip-gradient mode [load_psf] returns for stars and for
    galaxies alike once detector, bandpass and scaled aberrations are
    there. *)
Lemma load_psf_chip_ok (e : env) (st : pointing) (pos : position) (star : bool)
  (sp : option position) (ha : bool) (g : pyval) (s : Z) (b : bandpass) (a : list R) :
  getitem (params st) "random_aberration_gradient" = Ok g ->
  truthy g = Ok true ->
  sca st = Some s ->
  ((0 <=? s)%Z && (s <? 2 ^ 32)%Z) = true ->
  bpass st = Some b ->
  extra_aberrations st = PySeq (NdArray a) ->
  exists c, load_psf e pos star sp ha st = Ok (Some (WfirstPSF c)).
Proof.
  intros Hg Ht Hs Hr Hb Ha. unfold load_psf.
  rewrite Hg. simpl. rewrite Ht. simpl. rewrite Hs. unfold seed_rand. rewrite Hr.
  simpl. rewrite Hb. simpl. rewrite Ha. simpl. eexists. reflexivity.
Qed.

(** The theorem above on a pointing under the chip-gradient mode, built
    for dither 0 and bound to detector 1. *)
Lemma load_psf_star_needs_chip_gradient_witness :
  let prm := <["random_aberration_gradient" := PyBool true]> Examples.params0 in
  exists st0 st1 r,
    init Examples.env0 prm None None (Some 0%Z) None 0.009 (Some 0%Z) = Ok st0 /\
    update_sca Examples.env0 1 st0 = Ok st1 /\
    load_psf Examples.env0 {| pos_x := 7; pos_y := 9 |} true None false st1 = Ok r /\
    chip_flag st1 = Ok true.
Proof.
  intros prm.
  assert (H0 : exists st0,
             init Examples.env0 prm None None (Some 0%Z) None 0.009 (Some 0%Z) = Ok st0)
    by (eexists; vm_compute; reflexivity).
  destruct H0 as (st0 & H0).
  assert (H1 : exists st1, update_sca Examples.env0 1 st0 = Ok st1).
  { pose proof H0 as E. vm_compute in E. injection E as <-.
    eexists. vm_compute. reflexivity. }
  destruct H1 as (st1 & H1).
  assert (H2 : exists c,
             load_psf Examples.env0 {| pos_x := 7; pos_y := 9 |} true None false st1
             = Ok (Some (WfirstPSF c))).
  { pose proof H0 as E0. vm_compute in E0. injection E0 as <-.
    pose proof H1 as E1. vm_compute in E1. injection E1 as <-.
    eapply (load_psf_chip_ok _ _ _ _ _ _ (PyBool true) 1%Z).
    - vm_compute; reflexivity.
    - reflexivity.
    - vm_compute; reflexivity.
    - reflexivity.
    - vm_compute; reflexivity.
    - vm_compute; reflexivity. }
  destruct H2 as (c & H2).
  exists st0, st1, (Some (WfirstPSF c)).
  split; [exact H0 |]. split; [exact H1 |]. split; [exact H2 |].
  apply (load_psf_star_needs_chip_gradient Examples.env0 st1
           {| pos_x := 7; pos_y := 9 |} None false (Some (WfirstPSF c)));
    [| exact H2].
  apply (reach_update_sca _ st0 1 st1); [| exact H1].
  exact (reach_init _ _ _ _ _ _ _ _ _ H0).
Defined.

(** ** [time_aberration]: the elapsed mission time *)





(** ** [in_sca]: arrays and single positions *)

Lemma result_map_nth {A B : Type} (f : A -> result B) (l : list A) (m : list B)
  (i : nat) (a : A) :
  result_map f l = Ok m ->
  nth_error l i = Some a ->
  exists b, f a = Ok b /\ nth_error m i = Some b.
Proof.
  revert m i. induction l as [| x l IH]; intros m i H Hi.
  - destruct i; discriminate Hi.
  - simpl in H. inv_bind H as b Hb. inv_bind H as bs Hbs. injection H as <-.
    destruct i as [| i]; simpl in Hi.
    + injection Hi as <-. exists b. split; [exact Hb | reflexivity].
    + exact (IH bs i Hbs Hi).
Qed.

Lemma np_where_In (mask : list bool) (i : nat) :
  In i (np_where mask) <-> nth_error mask i = Some true.
Proof.
  unfold np_where. rewrite where_from_In. split.
  - intros (j & -> & H). exact H.
  - intros H. exists i. split; [reflexivity | exact H].
Qed.

(** The array branch of [in_sca] agrees with the branch for a single
    position: an index is among those returned for the arrays exactly when
    the call on that one position answers [True]. *)
Theorem in_sca_batch_scalar (e : env) (st : pointing) (pts : list (R * R))
  (l : list nat) :
  in_sca e (Batch pts) st = Ok (Indices l) ->
  forall i q, nth_error pts i = Some q ->
              (In i l <-> in_sca e (Scalar (fst q) (snd q)) st = Ok (Inside true)).
Proof.
  unfold in_sca. intros H i q Hq.
  destruct (dither st); [| discriminate H].
  destruct (sca st) as [s |]; [| discriminate H].
  inv_bind H as p Hp. inv_bind H as cev Hcev. inv_bind H as ce Hce.
  inv_bind H as m Hm. injection H as <-.
  rewrite Hp. simpl. rewrite Hcev. simpl. rewrite Hce. simpl.
  destruct (result_map_nth _ _ _ i q Hm Hq) as (b & Hb & Hi).
  destruct q as [qr qd]. simpl in *. rewrite Hb. simpl.
  rewrite np_where_In, Hi. split.
  - intros [= ->]. reflexivity.
  - intros [= ->]. reflexivity.
Qed.

Lemma on_chip_mono (e : env) (s : Z) (ce ce' xi yi : R) :
  (ce <= ce')%R ->
  on_chip e s ce xi yi = Ok true ->
  on_chip e s ce' xi yi = Ok true.
Proof.
  intros Hle. unfold on_chip.
  assert (E : forall k b,
             (let! a := py_index (cptr e) (k + 12 * (s - 1))%Z in
              let! b0 := py_index (cptr e) (k + 1 + 12 * (s - 1))%Z in
              let! c := py_index (cptr e) (k + 2 + 12 * (s - 1))%Z in
              Ok (if Rlt_dec (a * xi + b0 * yi) (c + ce) then true else false)) = Ok b ->
             b = true ->
             (let! a := py_index (cptr e) (k + 12 * (s - 1))%Z in
              let! b0 := py_index (cptr e) (k + 1 + 12 * (s - 1))%Z in
              let! c := py_index (cptr e) (k + 2 + 12 * (s - 1))%Z in
              Ok (if Rlt_dec (a * xi + b0 * yi) (c + ce') then true else false))
             = Ok true).
  { intros k b H Hb. inv_bind H as a0 Ha. inv_bind H as b0 Hb0. inv_bind H as c0 Hc.
    rewrite Ha. simpl. rewrite Hb0. simpl. rewrite Hc. simpl.
    subst b. injection H as H.
    destruct (Rlt_dec (a0 * xi + b0 * yi) (c0 + ce)); [| discriminate H].
    destruct (Rlt_dec (a0 * xi + b0 * yi) (c0 + ce')); [reflexivity | lra]. }
  intros H. inv_bind H as t0 H0. inv_bind H as t1 H1. inv_bind H as t2 H2.
  inv_bind H as t3 H3. injection H as H.
  apply andb_true_iff in H. destruct H as [H H3t].
  apply andb_true_iff in H. destruct H as [H H2t].
  apply andb_true_iff in H. destruct H as [H0t H1t].
  rewrite (E _ _ H0 H0t). simpl. rewrite (E _ _ H1 H1t). simpl.
  rewrite (E _ _ H2 H2t). simpl. rewrite (E _ _ H3 H3t). reflexivity.
Qed.

(** Enlarging the chip never loses an object: a position that [in_sca]
    accepts with the tolerance [ce] is accepted with every larger one. *)
Theorem in_sca_enlarge_monotone (e : env) (st : pointing) (ra_ dec_ ce ce' : R) :
  (ce <= ce')%R ->
  in_sca e (Scalar ra_ dec_) (set_chip_enlarge (Some (PyNum ce)) st)
  = Ok (Inside true) ->
  in_sca e (Scalar ra_ dec_) (set_chip_enlarge (Some (PyNum ce')) st)
  = Ok (Inside true).
Proof.
  intros Hle. unfold in_sca. simpl.
  destruct (dither st); [| intros H; discriminate H].
  destruct (sca st) as [s |]; [| intros H; discriminate H].
  destruct (pose st) as [p |]; simpl; [| intros H; discriminate H].
  intros H. inv_bind H as b Hb. injection H as ->.
  rewrite (on_chip_mono _ _ _ _ _ _ Hle Hb). reflexivity.
Qed.

(** The theorem above on one position and a table that accepts it. *)
Lemma in_sca_batch_scalar_witness :
  exists l,
    in_sca Examples.env_chip (Batch [(0%R, 0%R)]) (Examples.bound Examples.params0)
    = Ok (Indices l) /\
    (In 0%nat l <->
     in_sca Examples.env_chip (Scalar 0 0) (Examples.bound Examples.params0)
     = Ok (Inside true)).
Proof.
  assert (H : exists l,
            in_sca Examples.env_chip (Batch [(0%R, 0%R)])
              (Examples.bound Examples.params0) = Ok (Indices l)).
  { unfold in_sca. simpl. repeat destruct (Rlt_dec _ _); eexists; reflexivity. }
  destruct H as (l & H). exists l. split; [exact H |].
  exact (in_sca_batch_scalar _ _ _ _ H 0%nat (0%R, 0%R) eq_refl).
Defined.

(** The theorem above for the tolerances 0.01 and 0.02. *)
Lemma in_sca_enlarge_monotone_witness :
  in_sca Examples.env_chip (Scalar 0 0)
    (set_chip_enlarge (Some (PyNum 0.02)) (Examples.bound Examples.params0))
  = Ok (Inside true).
Proof.
  apply (in_sca_enlarge_monotone Examples.env_chip (Examples.bound Examples.params0)
           0 0 0.01 0.02); [lra |].
  unfold in_sca. simpl.
  repeat (destruct (Rlt_dec _ _) as [_ | Hn]; [| exfalso; apply Hn; lra]).
  reflexivity.
Defined.

(** * Further properties of [sim.py] *)

(** ** [__init__]: the parameters *)

Lemma parse_value_fixed (v : pyval) :
  ~ keyword v -> Sim.parse_value v = v.
Proof.
  unfold keyword. intros Hk. destruct v; try reflexivity.
  unfold Sim.parse_value, Sim.eq_str.
  destruct (String.eqb_spec s "None") as [-> | _]; [contradiction Hk; auto |].
  destruct (String.eqb_spec s "none") as [-> | _]; [contradiction Hk; auto |].
  destruct (String.eqb_spec s "True") as [-> | _]; [contradiction Hk; auto |].
  destruct (String.eqb_spec s "False") as [-> | _]; [contradiction Hk; auto 6 |].
  reflexivity.
Qed.

Lemma parse_value_clean (v : pyval) : ~ keyword (Sim.parse_value v).
Proof.
  unfold keyword. destruct v;
    try (unfold Sim.parse_value; simpl; intros [H | [H | [H | H]]]; discriminate H).
  unfold Sim.parse_value, Sim.eq_str.
  destruct (String.eqb_spec s "None") as [-> | N1];
    [simpl; intros [H | [H | [H | H]]]; discriminate H |].
  destruct (String.eqb_spec s "none") as [-> | N2];
    [simpl; intros [H | [H | [H | H]]]; discriminate H |].
  destruct (String.eqb_spec s "True") as [-> | N3];
    [simpl; intros [H | [H | [H | H]]]; discriminate H |].
  destruct (String.eqb_spec s "False") as [-> | N4];
    [simpl; intros [H | [H | [H | H]]]; discriminate H |].
  intros [H | [H | [H | H]]]; injection H as ->; contradiction.
Qed.

(** A parameter file read by [__init__]: afterwards no value is one of
    the strings 'None', 'none', 'True' and 'False' (they have become
    [None], [True] and [False]), every other value is as loaded, the key
    [condor] is there, and without MPI the rank is 0. *)
Theorem init_from_file (chdir : pyval -> result unit) (loaded : gmap string pyval)
  (world_rank : nat) (s : Sim.sim) :
  Sim.init chdir (Sim.Path loaded) world_rank = Ok s ->
  (forall k v, Sim.params s !! k = Some v -> ~ keyword v) /\
  (forall k v, loaded !! k = Some v -> ~ keyword v -> Sim.params s !! k = Some v) /\
  (forall k, loaded !! k = Some (PyStr "None") -> Sim.params s !! k = Some PyNone) /\
  is_Some (Sim.params s !! "condor") /\
  (Sim.comm s = false -> Sim.rank s = 0%nat).
Proof.
  unfold Sim.init. intros H. inv_bind H as u Hu. inv_bind H as m Hm.
  inv_bind H as on Hon. injection H as <-. simpl.
  set (parsed := Sim.parse_value <$> loaded) in *.
  assert (Hp : forall k, parsed !! k = Sim.parse_value <$> loaded !! k)
    by (intros k; apply lookup_fmap).
  assert (Hc : forall k v,
             (if contains parsed "condor" then parsed
              else <["condor" := PyBool false]> parsed) !! k = Some v ->
             v = PyBool false \/ parsed !! k = Some v).
  { intros k v. destruct (contains parsed "condor"); [auto |].
    destruct (decide (k = "condor")) as [-> | Hne].
    - rewrite lookup_insert_eq. intros [= <-]. left. reflexivity.
    - rewrite lookup_insert_ne by congruence. auto. }
  assert (Hk : forall k v,
             parsed !! k = Some v ->
             (if contains parsed "condor" then parsed
              else <["condor" := PyBool false]> parsed) !! k = Some v).
  { intros k v Hv. unfold contains.
    destruct (parsed !! "condor") eqn:E; [exact Hv |].
    rewrite lookup_insert_ne; [exact Hv |]. intros <-. rewrite E in Hv. discriminate Hv. }
  split; [| split; [| split; [| split]]].
  - intros k v Hv. apply Hc in Hv. destruct Hv as [-> | Hv].
    + unfold keyword. intros [H | [H | [H | H]]]; discriminate H.
    + rewrite Hp in Hv. destruct (loaded !! k) as [v0 |]; [| discriminate Hv].
      injection Hv as <-. apply parse_value_clean.
  - intros k v Hv Hn. apply Hk. rewrite Hp, Hv. simpl.
    rewrite (parse_value_fixed v Hn). reflexivity.
  - intros k Hv. apply Hk. rewrite Hp, Hv. reflexivity.
  - unfold contains. destruct (parsed !! "condor") eqn:E.
    + rewrite E. eexists; reflexivity.
    + rewrite lookup_insert_eq. eexists; reflexivity.
  - intros ->. reflexivity.
Qed.

(** The theorem above on a file that spells two of its values as strings. *)
Lemma init_from_file_witness :
  exists s,
    Sim.init Examples.chdir
      (Sim.Path (<["mpi" := PyStr "False"]>
                 (<["gauss_psf" := PyStr "None"]> Examples.params0))) 3 = Ok s /\
    Sim.params s !! "gauss_psf" = Some PyNone /\
    Sim.rank s = 0%nat /\
    is_Some (Sim.params s !! "condor").
Proof.
  assert (H : exists s,
            Sim.init Examples.chdir
              (Sim.Path (<["mpi" := PyStr "False"]>
                         (<["gauss_psf" := PyStr "None"]> Examples.params0))) 3 = Ok s /\
            Sim.comm s = false)
    by (eexists; split; vm_compute; reflexivity).
  destruct H as (s & H & Hcomm).
  destruct (init_from_file _ _ _ _ H) as (_ & _ & Hnone & Hcondor & Hrank).
  exists s. split; [exact H |]. split; [| split; [exact (Hrank Hcomm) | exact Hcondor]].
  apply Hnone. reflexivity.
Defined.

(** A dictionary handed to [__init__] is taken as it is: the four strings
    are not replaced and [condor] is not added. *)
Theorem init_from_dict (chdir : pyval -> result unit) (d : gmap string pyval)
  (world_rank : nat) (s : Sim.sim) :
  Sim.init chdir (Sim.Dict d) world_rank = Ok s ->
  Sim.params s = d /\
  Sim.pointing s = None /\
  (exists m, d !! "mpi" = Some m /\ truthy m = Ok (Sim.comm s)).
Proof.
  unfold Sim.init. intros H. inv_bind H as u Hu. inv_bind H as m Hm.
  inv_bind H as on Hon.
  injection H as <-. simpl. split; [reflexivity |]. split; [reflexivity |].
  exists m. split; [| exact Hon].
  unfold getitem in Hm. destruct (d !! "mpi"); [| discriminate Hm].
  injection Hm as ->. reflexivity.
Qed.

(** The theorem above on a dictionary with [mpi: True]. *)
Lemma init_from_dict_witness :
  exists s,
    Sim.init Examples.chdir
      (Sim.Dict (<["mpi" := PyBool true]>
                 (<["gauss_psf" := PyStr "None"]> Examples.params0))) 3 = Ok s /\
    Sim.params s !! "gauss_psf" = Some (PyStr "None").
Proof.
  assert (H : exists s,
            Sim.init Examples.chdir
              (Sim.Dict (<["mpi" := PyBool true]>
                         (<["gauss_psf" := PyStr "None"]> Examples.params0))) 3 = Ok s)
    by (eexists; vm_compute; reflexivity).
  destruct H as (s & H).
  destruct (init_from_dict _ _ _ _ H) as (Hp & _).
  exists s. split; [exact H |]. rewrite Hp. reflexivity.
Defined.

(** ** [get_sca_list] *)

(** [get_sca_list] returns the SCAs 1 to 18 for every parameter
    dictionary: it asks the dictionary for an attribute [sca], which a
    dictionary does not have, so an entry [sca] is never looked at. *)
Theorem get_sca_list_all (s : Sim.sim) : Sim.get_sca_list s = Ok (Sim.Arange 1 19).
Proof. reflexivity. Qed.

(** ** [iterate_image]: the loops over the renderer's results *)

(** The loop of one class fills the rows from [i] on, one row for each
    result that is not [None], and leaves the rows before and after them
    as they were. *)
Lemma simulate_rows (c : Sim.object_class) (prm : gmap string pyval)
  (psca pdither : option Z) (results : list (option Sim.obj)) :
  forall (pre post : list Sim.row) (pickled : list Sim.obj)
         (table' : list Sim.row) (pickled' : list Sim.obj),
    Sim.simulate c prm psca pdither results (length pre) (pre ++ post) pickled
    = Ok (table', pickled') ->
    exists filled,
      table' = pre ++ filled ++ skipn (length filled) post /\
      (length filled <= length post)%nat /\
      List.Forall2
        (fun g r => exists old s d,
                      psca = Some s /\ pdither = Some d /\
                      r = Sim.fill_row c s d g old)
        (non_null results) filled.
Proof.
  induction results as [| [g |] rest IH]; intros pre post pickled table' pickled' H.
  - simpl in H. injection H as <- <-. exists []. simpl.
    split; [reflexivity |]. split; [lia | constructor].
  - simpl in H. inv_bind H as skip Hskip.
    destruct post as [| old post'].
    + rewrite app_nil_r in H.
      assert (E : pre !! length pre = None) by (apply lookup_ge_None; lia).
      rewrite E in H. discriminate H.
    + rewrite list_lookup_middle in H by reflexivity.
      inv_bind H as s Hs. inv_bind H as d Hd.
      rewrite insert_app_r_alt in H by lia.
      rewrite Nat.sub_diag in H. simpl in H.
      replace (pre ++ Sim.fill_row c s d g old :: post')
        with ((pre ++ [Sim.fill_row c s d g old]) ++ post') in H
        by (rewrite <- app_assoc; reflexivity).
      replace (S (length pre)) with (length (pre ++ [Sim.fill_row c s d g old])) in H
        by (rewrite length_app; simpl; lia).
      apply IH in H. destruct H as (filled & -> & Hlen & Hall).
      exists (Sim.fill_row c s d g old :: filled). simpl.
      split; [rewrite <- app_assoc; reflexivity |]. split; [lia |].
      constructor; [| exact Hall].
      exists old, s, d.
      destruct psca; [| discriminate Hs]. destruct pdither; [| discriminate Hd].
      injection Hs as ->. injection Hd as ->. repeat split.
  - simpl in H. exact (IH pre post pickled table' pickled' H).
Qed.

Lemma realized_app (a b : list Sim.row) :
  Sim.realized (a ++ b) = Sim.realized a ++ Sim.realized b.
Proof. unfold Sim.realized. apply List.filter_app. Qed.

Lemma realized_sentinel (t : list Sim.row) :
  List.Forall (fun r => Sim.ind r = Sim.sentinel) t -> Sim.realized t = [].
Proof.
  induction 1 as [| r t Hr _ IH]; simpl; [reflexivity |].
  rewrite Hr, Z.ltb_irrefl. exact IH.
Qed.

Lemma np_empty_sentinel (junk : nat -> Sim.row) (n : nat) :
  List.Forall (fun r => Sim.ind r = Sim.sentinel) (Sim.np_empty junk n).
Proof.
  unfold Sim.np_empty. apply List.Forall_forall. intros r Hr.
  apply List.in_map_iff in Hr. destruct Hr as (i & <- & _). reflexivity.
Qed.

Lemma Forall_skipn {A : Type} (P : A -> Prop) (n : nat) (l : list A) :
  List.Forall P l -> List.Forall P (skipn n l).
Proof.
  intros H. revert n. induction H as [| a l Ha _ IH]; intros [| n]; simpl.
  - constructor.
  - constructor.
  - constructor; [exact Ha |]. exact (IH 0%nat).
  - apply IH.
Qed.

(** What is written of a table that one loop has filled, starting from
    the freshly allocated table: the rows of the results that are not
    [None] and whose [ind] is above the sentinel, in the order of the
    renderer, each with the SCA and the dither of the pointing. *)
Lemma realized_after_simulate (c : Sim.object_class) (prm : gmap string pyval)
  (psca pdither : option Z) (results : list (option Sim.obj))
  (junk : nat -> Sim.row) (n : nat) (table' : list Sim.row) (pickled' : list Sim.obj) :
  Sim.simulate c prm psca pdither results 0 (Sim.np_empty junk n) [] = Ok (table', pickled') ->
  List.map Sim.ind (Sim.realized table')
  = List.filter (fun z => (Sim.sentinel <? z)%Z) (List.map Sim.o_ind (non_null results)) /\
  List.Forall (fun r => Some (Sim.sca r) = psca /\ Some (Sim.dither r) = pdither)
    (Sim.realized table').
Proof.
  intros H.
  apply (simulate_rows c prm psca pdither results [] (Sim.np_empty junk n)) in H.
  destruct H as (filled & -> & _ & Hall). simpl.
  rewrite realized_app.
  rewrite (realized_sentinel (skipn _ _))
    by (apply Forall_skipn, np_empty_sentinel).
  rewrite app_nil_r. clear junk n.
  induction Hall as [| g r objs filled (old & s & d & Hs & Hd & ->) _ IH]; simpl.
  - split; [reflexivity | constructor].
  - destruct IH as [IH1 IH2].
    destruct (Sim.sentinel <? Sim.o_ind g)%Z; simpl.
    + split; [rewrite IH1; reflexivity |].
      constructor; [| exact IH2]. split; [rewrite Hs | rewrite Hd]; reflexivity.
    + split; [exact IH1 | exact IH2].
Qed.

(** The three loops of [iterate_image] seen from their results: a table
    exists exactly for a class with candidates, and is the table its loop
    returned. *)
Lemma simulate_classes_tables (prm : gmap string pyval) (p : pointing)
  (w : Sim.worker) (l : Sim.locals) :
  Sim.simulate_classes prm p w = Ok l ->
  (if Nat.eqb (Sim.gal_length w) 0
   then Sim.index_table l = None /\ Sim.stream l = []
   else exists t,
          Sim.simulate Sim.Galaxy prm (sca p) (dither p) (Sim.gal_results w) 0
            (Sim.np_empty (Sim.gal_junk w) (Sim.gal_length w)) []
          = Ok (t, Sim.stream l) /\
          Sim.index_table l = Some t) /\
  (if Nat.eqb (Sim.star_list w) 0
   then Sim.index_table_star l = None /\ Sim.stream_star l = []
   else exists t,
          Sim.simulate Sim.Star prm (sca p) (dither p) (Sim.star_results w) 0
            (Sim.np_empty (Sim.star_junk w) (Sim.star_length w)) []
          = Ok (t, Sim.stream_star l) /\
          Sim.index_table_star l = Some t) /\
  (if Nat.eqb (Sim.supernova_list w) 0
   then Sim.index_table_sn l = None /\ Sim.stream_sn l = []
   else exists t,
          Sim.simulate Sim.Supernova prm (sca p) (dither p) (Sim.supernova_results w) 0
            (Sim.np_empty (Sim.supernova_junk w) (Sim.supernova_length w)) []
          = Ok (t, Sim.stream_sn l) /\
          Sim.index_table_sn l = Some t).
Proof.
  unfold Sim.simulate_classes. intros H.
  inv_bind H as f Hf. inv_bind H as o Ho. inv_bind H as m Hm.
  inv_bind H as g Hg. inv_bind H as s Hs. inv_bind H as n Hn.
  injection H as <-. simpl.
  split; [| split].
  - destruct (Nat.eqb (Sim.gal_length w) 0); simpl in Hg.
    + injection Hg as <-. split; reflexivity.
    + inv_bind Hg as r Hr. injection Hg as <-. destruct r as [t pk]. simpl.
      exists t. split; [exact Hr | reflexivity].
  - destruct (Nat.eqb (Sim.star_list w) 0); simpl in Hs.
    + injection Hs as <-. split; reflexivity.
    + inv_bind Hs as r Hr. injection Hs as <-. destruct r as [t pk]. simpl.
      exists t. split; [exact Hr | reflexivity].
  - destruct (Nat.eqb (Sim.supernova_list w) 0); simpl in Hn.
    + injection Hn as <-. split; reflexivity.
    + inv_bind Hn as r Hr. injection Hn as <-. destruct r as [t pk]. simpl.
      exists t. split; [exact Hr | reflexivity].
Qed.

(** What [iterate_image] has done on rank 0 when it returns with the
    truth tables written. *)
Lemma iterate_image_inv (e : Sim.env) (s : Sim.sim) (w0 : Sim.worker)
  (others : list Sim.worker) (out : Sim.written) :
  Sim.iterate_image e s w0 others = Ok (Some out) ->
  exists p l t ts tn,
    Sim.pointing s = Some p /\
    Sim.simulate_classes (Sim.params s) p w0 = Ok l /\
    Sim.index_table l = Some t /\ Sim.index_table_star l = Some ts /\
    Sim.index_table_sn l = Some tn /\
    Sim.truth out = Sim.realized t /\ Sim.truth_star out = Sim.realized ts /\
    Sim.truth_sn out = Sim.realized tn.
Proof.
  unfold Sim.iterate_image. intros H.
  inv_bind H as p Hp. inv_bind H as l Hl. inv_bind H as r Hr.
  destruct r as [[acc img] |]; [| discriminate H].
  inv_bind H as t Ht. injection H as <-. simpl.
  destruct t as [[t ts] tn]. apply write_truth_realized in Ht.
  destruct Ht as (t0 & ts0 & tn0 & H1 & H2 & H3 & -> & -> & ->).
  destruct (Sim.pointing s) as [p' |]; [| discriminate Hp]. injection Hp as ->.
  exists p, l, t0, ts0, tn0. repeat split; assumption.
Qed.

(** The truth tables that rank 0 writes list, class by class, the results
    of the renderer that are not [None] and carry an [ind] above -999, in
    the order in which the renderer produced them, and every row written
    bears the SCA and the dither of the pointing. *)
Theorem truth_tables_content (e : Sim.env) (s : Sim.sim) (w0 : Sim.worker)
  (others : list Sim.worker) (out : Sim.written) :
  Sim.iterate_image e s w0 others = Ok (Some out) ->
  exists p,
    Sim.pointing s = Some p /\
    List.map Sim.ind (Sim.truth out)
    = List.filter (fun z => (-999 <? z)%Z)
        (List.map Sim.o_ind (non_null (Sim.gal_results w0))) /\
    List.map Sim.ind (Sim.truth_star out)
    = List.filter (fun z => (-999 <? z)%Z)
        (List.map Sim.o_ind (non_null (Sim.star_results w0))) /\
    List.map Sim.ind (Sim.truth_sn out)
    = List.filter (fun z => (-999 <? z)%Z)
        (List.map Sim.o_ind (non_null (Sim.supernova_results w0))) /\
    List.Forall (fun r => Some (Sim.sca r) = sca p /\ Some (Sim.dither r) = dither p)
      (Sim.truth out ++ Sim.truth_star out ++ Sim.truth_sn out).
Proof.
  intros H. apply iterate_image_inv in H.
  destruct H as (p & l & t & ts & tn & Hp & Hl & Ht & Hts & Htn & -> & -> & ->).
  apply simulate_classes_tables in Hl. destruct Hl as (Hg & Hs & Hn).
  destruct (Nat.eqb (Sim.gal_length w0) 0);
    [destruct Hg as [Hg _]; rewrite Hg in Ht; discriminate Ht |].
  destruct (Nat.eqb (Sim.star_list w0) 0);
    [destruct Hs as [Hs _]; rewrite Hs in Hts; discriminate Hts |].
  destruct (Nat.eqb (Sim.supernova_list w0) 0);
    [destruct Hn as [Hn _]; rewrite Hn in Htn; discriminate Htn |].
  destruct Hg as (t' & Hg & Et). rewrite Et in Ht. injection Ht as ->.
  destruct Hs as (ts' & Hs & Ets). rewrite Ets in Hts. injection Hts as ->.
  destruct Hn as (tn' & Hn & Etn). rewrite Etn in Htn. injection Htn as ->.
  apply realized_after_simulate in Hg. apply realized_after_simulate in Hs.
  apply realized_after_simulate in Hn.
  destruct Hg as [Hg1 Hg2]. destruct Hs as [Hs1 Hs2]. destruct Hn as [Hn1 Hn2].
  exists p. split; [exact Hp |]. split; [exact Hg1 |]. split; [exact Hs1 |].
  split; [exact Hn1 |].
  apply List.Forall_app. split; [exact Hg2 |].
  apply List.Forall_app. split; [exact Hs2 | exact Hn2].
Qed.

(** Rank 0 gets as far as writing the truth tables only when each of the
    three classes has a candidate: the table of a class without
    candidates is never allocated, and the statement that masks it
    raises. *)
Theorem truth_tables_need_all_classes (e : Sim.env) (s : Sim.sim) (w0 : Sim.worker)
  (others : list Sim.worker) (out : Sim.written) :
  Sim.iterate_image e s w0 others = Ok (Some out) ->
  Sim.gal_length w0 <> 0%nat /\ Sim.star_list w0 <> 0%nat /\
  Sim.supernova_list w0 <> 0%nat.
Proof.
  intros H. apply iterate_image_inv in H.
  destruct H as (p & l & t & ts & tn & Hp & Hl & Ht & Hts & Htn & _).
  apply simulate_classes_tables in Hl. destruct Hl as (Hg & Hs & Hn).
  repeat split; intros E.
  - rewrite E in Hg. simpl in Hg. destruct Hg as [Hg _]. rewrite Hg in Ht. discriminate Ht.
  - rewrite E in Hs. simpl in Hs. destruct Hs as [Hs _]. rewrite Hs in Hts.
    discriminate Hts.
  - rewrite E in Hn. simpl in Hn. destruct Hn as [Hn _]. rewrite Hn in Htn.
    discriminate Htn.
Qed.

(** A run of two ranks that writes its tables, for the two theorems
    above. *)
Lemma iterate_image_example :
  exists out,
    Sim.iterate_image (Examples.sim_env
                         {| Sim.gal_ind := [41%Z]; Sim.star_ind := [42%Z];
                            Sim.supernova_ind := [43%Z] |})
      Examples.sim1 (Examples.worker1 2) [Examples.worker1 2] = Ok (Some out).
Proof. eexists. vm_compute. reflexivity. Defined.

Lemma truth_tables_content_witness :
  exists out,
    Sim.iterate_image (Examples.sim_env
                         {| Sim.gal_ind := [41%Z]; Sim.star_ind := [42%Z];
                            Sim.supernova_ind := [43%Z] |})
      Examples.sim1 (Examples.worker1 2) [Examples.worker1 2] = Ok (Some out) /\
    List.map Sim.ind (Sim.truth out) = [41%Z] /\
    List.map Sim.ind (Sim.truth_star out) = [42%Z] /\
    List.map Sim.ind (Sim.truth_sn out) = [43%Z] /\
    List.Forall (fun r => Sim.sca r = 3%Z /\ Sim.dither r = 5%Z)
      (Sim.truth out ++ Sim.truth_star out ++ Sim.truth_sn out).
Proof.
  destruct iterate_image_example as (out & H).
  destruct (truth_tables_content _ _ _ _ _ H) as (p & Hp & Hg & Hs & Hn & Hall).
  injection Hp as <-.
  exists out. split; [exact H |]. split; [exact Hg |]. split; [exact Hs |].
  split; [exact Hn |].
  eapply List.Forall_impl; [| exact Hall].
  intros r [H1 H2]. simpl in H1, H2. injection H1 as ->. injection H2 as ->.
  split; reflexivity.
Defined.

Lemma truth_tables_need_all_classes_witness :
  Sim.gal_length (Examples.worker1 2) <> 0%nat /\
  Sim.star_list (Examples.worker1 2) <> 0%nat /\
  Sim.supernova_list (Examples.worker1 2) <> 0%nat.
Proof.
  destruct iterate_image_example as (out & H).
  exact (truth_tables_need_all_classes _ _ _ _ _ H).
Defined.

(** ** [iterate_image]: the streams, and where it stops *)

Lemma simulate_pickled (c : Sim.object_class) (prm : gmap string pyval)
  (psca pdither : option Z) (results : list (option Sim.obj)) :
  forall (i : nat) (table : list Sim.row) (pickled : list Sim.obj)
         (table' : list Sim.row) (pickled' : list Sim.obj),
    Sim.simulate c prm psca pdither results i table pickled = Ok (table', pickled') ->
    match c with
    | Sim.Galaxy =>
        forall v sk, getitem prm "skip_stamps" = Ok v -> truthy v = Ok sk ->
                     pickled' = pickled ++ (if sk then [] else non_null results)
    | _ => pickled' = pickled ++ non_null results
    end.
Proof.
  induction results as [| [g |] rest IH]; intros i table pickled table' pickled' H.
  - simpl in H. injection H as <- <-.
    destruct c; [intros v sk _ _; destruct sk | |]; rewrite app_nil_r; reflexivity.
  - simpl in H. inv_bind H as skip Hskip.
    destruct (table !! i) as [old |]; [| discriminate H].
    inv_bind H as s Hs. inv_bind H as d Hd. apply IH in H.
    destruct c.
    + intros v sk Hv Hsk. rewrite Hv in Hskip. simpl in Hskip.
      rewrite Hsk in Hskip. injection Hskip as <-.
      rewrite (H v sk Hv Hsk). destruct sk; simpl; [reflexivity |].
      rewrite <- app_assoc. reflexivity.
    + injection Hskip as <-. rewrite H, <- app_assoc. reflexivity.
    + injection Hskip as <-. rewrite H, <- app_assoc. reflexivity.
  - simpl in H. apply IH in H. exact H.
Qed.

(** The streams of one worker: the star and the supernova stream hold
    every result of their class that is not [None], whatever
    [skip_stamps] says; the galaxy stream holds the galaxies that are not
    [None], or nothing when [skip_stamps] is set. *)
Theorem streams_content (prm : gmap string pyval) (p : pointing) (w : Sim.worker)
  (l : Sim.locals) (v : pyval) (sk : bool) :
  Sim.simulate_classes prm p w = Ok l ->
  getitem prm "skip_stamps" = Ok v ->
  truthy v = Ok sk ->
  (Sim.gal_length w <> 0%nat ->
   Sim.stream l = if sk then [] else non_null (Sim.gal_results w)) /\
  (Sim.star_list w <> 0%nat -> Sim.stream_star l = non_null (Sim.star_results w)) /\
  (Sim.supernova_list w <> 0%nat ->
   Sim.stream_sn l = non_null (Sim.supernova_results w)).
Proof.
  intros H Hv Hsk. apply simulate_classes_tables in H. destruct H as (Hg & Hs & Hn).
  split; [| split]; intros Hne.
  - apply Nat.eqb_neq in Hne. rewrite Hne in Hg. destruct Hg as (t & Hg & _).
    apply simulate_pickled in Hg. exact (Hg v sk Hv Hsk).
  - apply Nat.eqb_neq in Hne. rewrite Hne in Hs. destruct Hs as (t & Hs & _).
    apply simulate_pickled in Hs. exact Hs.
  - apply Nat.eqb_neq in Hne. rewrite Hne in Hn. destruct Hn as (t & Hn & _).
    apply simulate_pickled in Hn. exact Hn.
Qed.

(** The theorem above with [skip_stamps] set. *)
Lemma streams_content_witness :
  let prm := <["skip_stamps" := PyBool true]> Examples.params0 in
  exists l,
    Sim.simulate_classes prm
      (set_sca (Some 3%Z)
         (set_filter (Some "H158")
            (set_dither (Some 5%Z) (Examples.unbound prm 0.009))))
      (Examples.worker1 2) = Ok l /\
    Sim.stream l = [] /\
    Sim.stream_star l = [Examples.object 42] /\
    Sim.stream_sn l = [Examples.object 43].
Proof.
  intros prm.
  assert (H : exists l,
            Sim.simulate_classes prm
              (set_sca (Some 3%Z)
                 (set_filter (Some "H158")
                    (set_dither (Some 5%Z) (Examples.unbound prm 0.009))))
              (Examples.worker1 2) = Ok l)
    by (eexists; vm_compute; reflexivity).
  destruct H as (l & H).
  destruct (streams_content prm _ _ l (PyBool true) true H eq_refl eq_refl)
    as (Hg & Hs & Hn).
  exists l. split; [exact H |].
  split; [apply Hg; discriminate |].
  split; [apply Hs; discriminate | apply Hn; discriminate].
Defined.

Lemma simulate_overflow (c : Sim.object_class) (prm : gmap string pyval)
  (s d : Z) (v : pyval) (sk : bool) (results : list (option Sim.obj)) :
  getitem prm "skip_stamps" = Ok v ->
  truthy v = Ok sk ->
  forall (i : nat) (table : list Sim.row) (pickled : list Sim.obj),
    (i <= length table)%nat ->
    (length table < i + length (non_null results))%nat ->
    Sim.simulate c prm (Some s) (Some d) results i table pickled = Raise IndexError.
Proof.
  intros Hv Hsk.
  induction results as [| [g |] rest IH]; intros i table pickled Hi Hlen; simpl in *.
  - lia.
  - assert (Hskip : exists skip,
               match c with
               | Sim.Galaxy => let! v0 := getitem prm "skip_stamps" in truthy v0
               | _ => Ok false
               end = Ok skip).
    { destruct c; [rewrite Hv; simpl; rewrite Hsk |  |]; eexists; reflexivity. }
    destruct Hskip as (skip & ->). simpl.
    destruct (table !! i) as [old |] eqn:E; [| reflexivity].
    simpl. apply lookup_lt_Some in E.
    apply IH; rewrite length_insert; lia.
  - apply IH; assumption.
Qed.

(** When the renderer hands over more galaxies than the galaxy table has
    rows, [iterate_image] stops with an [IndexError] in the galaxy loop,
    before the barrier. *)
Theorem iterate_image_overflow (e : Sim.env) (s : Sim.sim) (w0 : Sim.worker)
  (others : list Sim.worker) (p : pointing) (f : string) (sc d : Z)
  (v : pyval) (sk : bool) :
  Sim.pointing s = Some p ->
  filter p = Some f -> sca p = Some sc -> dither p = Some d ->
  is_Some (Sim.params s !! "out_path") ->
  is_Some (Sim.params s !! "output_meds") ->
  getitem (Sim.params s) "skip_stamps" = Ok v ->
  truthy v = Ok sk ->
  Sim.gal_length w0 <> 0%nat ->
  (Sim.gal_length w0 < length (non_null (Sim.gal_results w0)))%nat ->
  Sim.iterate_image e s w0 others = Raise IndexError.
Proof.
  intros Hp Hf Hsc Hd [o Ho] [m Hm] Hv Hsk Hne Hlen.
  unfold Sim.iterate_image. rewrite Hp. simpl.
  unfold Sim.simulate_classes. rewrite Hf. simpl.
  unfold getitem at 1. rewrite Ho. simpl. unfold getitem at 1. rewrite Hm. simpl.
  apply Nat.eqb_neq in Hne. rewrite Hne. simpl. rewrite Hsc, Hd.
  rewrite (simulate_overflow Sim.Galaxy _ sc d v sk _ Hv Hsk); [reflexivity | lia |].
  unfold Sim.np_empty. rewrite length_map, length_seq. simpl. exact Hlen.
Qed.

(** The theorem above for one allocated row and two rendered galaxies. *)
Lemma iterate_image_overflow_witness :
  Sim.iterate_image (Examples.sim_env
                       {| Sim.gal_ind := [41%Z]; Sim.star_ind := [];
                          Sim.supernova_ind := [] |})
    Examples.sim1
    {| Sim.gal_length := 1;
       Sim.gal_results := [Some (Examples.object 41); Some (Examples.object 44)];
       Sim.gal_junk := fun _ => Examples.blank;
       Sim.star_list := 0; Sim.star_length := 0; Sim.star_results := [];
       Sim.star_junk := fun _ => Examples.blank;
       Sim.supernova_list := 0; Sim.supernova_length := 0;
       Sim.supernova_results := [];
       Sim.supernova_junk := fun _ => Examples.blank;
       Sim.im := [] |} []
  = Raise IndexError.
Proof.
  eapply (iterate_image_overflow _ _ _ _ _ "H158" 3 5 (PyBool false) false);
    try reflexivity.
  - eexists; reflexivity.
  - eexists; reflexivity.
  - discriminate.
  - simpl. lia.
Defined.

(** Without MPI [iterate_image] never returns: [self.comm] is [None] and
    the barrier after the loops is called on it. A worker that comes
    through its loops ends in that [AttributeError]. *)
Theorem iterate_image_without_mpi (e : Sim.env) (s : Sim.sim) (w0 : Sim.worker)
  (others : list Sim.worker) :
  Sim.comm s = false ->
  (exists err, Sim.iterate_image e s w0 others = Raise err) /\
  (forall p l, Sim.pointing s = Some p ->
               Sim.simulate_classes (Sim.params s) p w0 = Ok l ->
               Sim.iterate_image e s w0 others = Raise (AttributeError "Barrier")).
Proof.
  intros Hc. unfold Sim.iterate_image, Sim.reduce_image. rewrite Hc. split.
  - destruct (Sim.pointing s) as [p |]; simpl; [| eexists; reflexivity].
    destruct (Sim.simulate_classes (Sim.params s) p w0); simpl; eexists; reflexivity.
  - intros p l -> Hl. simpl. rewrite Hl. reflexivity.
Qed.

(** The theorem above on a simulation built from a dictionary with
    [mpi: False]. *)
Lemma iterate_image_without_mpi_witness :
  exists s err,
    Sim.init Examples.chdir (Sim.Dict (<["mpi" := PyBool false]> Examples.params0)) 0
    = Ok s /\
    Sim.iterate_image (Examples.sim_env
                         {| Sim.gal_ind := []; Sim.star_ind := [];
                            Sim.supernova_ind := [] |})
      s (Examples.worker1 2) [] = Raise err.
Proof.
  assert (H : exists s,
            Sim.init Examples.chdir
              (Sim.Dict (<["mpi" := PyBool false]> Examples.params0)) 0 = Ok s /\
            Sim.comm s = false)
    by (eexists; split; vm_compute; reflexivity).
  destruct H as (s & H & Hc).
  destruct (iterate_image_without_mpi
              (Examples.sim_env {| Sim.gal_ind := []; Sim.star_ind := [];
                                   Sim.supernova_ind := [] |})
              s (Examples.worker1 2) [] Hc) as ((err & Herr) & _).
  exists s, err. split; [exact H | exact Herr].
Defined.

(** ** [get_inds] after [setup] *)

Lemma init_unbound_pointing (e : env) (prm : gmap string pyval)
  (filter_ : option string) (sp : option position) (r : R) (rk : option Z)
  (st : pointing) :
  init e prm filter_ None None sp r rk = Ok st -> dither st = None /\ sca st = None.
Proof.
  unfold init. intros H.
  inv_bind H as v1 H1. inv_bind H as v2 H2. inv_bind H as v3 H3. inv_bind H as v4 H4.
  inv_bind H as st1 Hs1. simpl in H. inv_bind H as ce Hce. injection H as <-. simpl.
  destruct filter_ as [f |].
  - apply get_bpass_ok in Hs1. destruct Hs1 as (b & _ & ->). split; reflexivity.
  - injection Hs1 as <-. split; reflexivity.
Qed.

(** After [setup] in set-up mode the pointing carries no dither, and
    [get_inds] refuses to run with the [ParamError] that asks for
    [update_dither]. *)
Theorem get_inds_after_setup_mode (e : Sim.env) (filter_ : string) (d sc : Z)
  (sim sim' : Sim.sim) (skip : bool) (gals stars supernovae : list (R * R)) :
  Sim.setup e filter_ d sc true sim = Ok (sim', skip) ->
  skip = false /\
  Sim.get_inds e gals stars supernovae sim'
  = Raise (ParamError
      "Sim pointing object has no dither assigned - need to run sim.pointing.update_dither() first.").
Proof.
  unfold Sim.setup. intros H.
  inv_bind H as u Hu. inv_bind H as p0 Hp0. inv_bind H as p Hp. inv_bind H as v Hv.
  simpl in Hp. injection Hp as <-. injection H as <- <-.
  split; [reflexivity |].
  apply init_unbound_pointing in Hp0. destruct Hp0 as [Hd _].
  unfold Sim.get_inds. simpl. rewrite Hd. reflexivity.
Qed.

(** The theorem above for the filter H158. *)
Lemma get_inds_after_setup_mode_witness :
  exists sim',
    Sim.setup (Examples.sim_env
                 {| Sim.gal_ind := []; Sim.star_ind := []; Sim.supernova_ind := [] |})
      "H158" 0 1 true Examples.sim0 = Ok (sim', false) /\
    Sim.get_inds (Examples.sim_env
                    {| Sim.gal_ind := []; Sim.star_ind := []; Sim.supernova_ind := [] |})
      [(0%R, 0%R)] [] [] sim'
    = Raise (ParamError
        "Sim pointing object has no dither assigned - need to run sim.pointing.update_dither() first.").
Proof.
  assert (H : exists sim',
            Sim.setup (Examples.sim_env
                 {| Sim.gal_ind := []; Sim.star_ind := []; Sim.supernova_ind := [] |})
              "H158" 0 1 true Examples.sim0 = Ok (sim', false))
    by (eexists; vm_compute; reflexivity).
  destruct H as (sim' & H). exists sim'. split; [exact H |].
  exact (proj2 (get_inds_after_setup_mode _ _ _ _ _ _ _ [(0%R, 0%R)] [] [] H)).
Defined.
